(** * go-serial: timeout translation and the port operation contract

    A shallow embedding of the [serial] package: the legacy and the
    current translation into [COMMTIMEOUTS], the Windows methods of
    [*serialPort] (open_windows.go, timeouts_windows.go and the Windows
    [PurgeBuffers]), their stubs for every other build (timeouts_other.go
    and its siblings), and the two [...WithTimeouts] wrappers.

    Conventions.
    - Fixed-width Go integers are [Z] with the wrap-around of every
      conversion written out ([uint32 x = x mod 2^32]).
    - [uint], [int] and [uintptr] are 64 bits wide, as on the 64-bit
      Windows targets; every [uint] value of a 32-bit target is also a
      [uint] value here.
    - [float64] is IEEE-754 binary64, taken from [SpecFloat] with
      [prec = 53] and [emax = 1024]; every operation is the correctly
      rounded one and evaluates inside Rocq.
    - A [*serialPort] is an [option serialPort]; [None] is the nil pointer.
      No method assigns to a field of its receiver, so a port is passed
      by value.  The port of the contract is this receiver; the exported
      struct [Port], which only embeds it, is modelled apart, with
      [Open], in [OpenWindows].
    - Calls that leave the process (kernel32 and [syscall]) go through a
      handle provider and are recorded, in order, in a trace. *)

From Stdlib Require Import ZArith List Bool Lia.
From Stdlib Require Import SpecFloat.
From Stdlib Require Ascii String.
Import ListNotations.
Local Open Scope Z_scope.

(** ** Fixed-width integers *)

Module GoInt.

(** Conversion to [uint32]: keep the low 32 bits. *)
Definition uint32 (x : Z) : Z := x mod 2 ^ 32.

(** [x] is a value of type [uint]. *)
Definition is_uint (x : Z) : Prop := 0 <= x < 2 ^ 64.

(** [x] is a value of type [int64]. *)
Definition is_int64 (x : Z) : Prop := - 2 ^ 63 <= x < 2 ^ 63.

(** Go's integer division truncates toward zero. *)
Definition div (x y : Z) : Z := Z.quot x y.

End GoInt.

(** ** binary64 *)

Module Float64.

Definition prec : Z := 53.
Definition emax : Z := 1024.

Definition float64 : Type := spec_float.

(** [float64(k)] for an integer [k]: round to nearest, ties to even. *)
Definition of_int (k : Z) : float64 := binary_normalize prec emax k 0 false.

Definition add : float64 -> float64 -> float64 := SFadd prec emax.
Definition div : float64 -> float64 -> float64 := SFdiv prec emax.

(** The constants [0.5] and [100.0]; both are exact. *)
Definition half : float64 := S754_finite false 4503599627370496 (-53).
Definition hundred : float64 := of_int 100.

(** The signed mantissa of a finite float. *)
Definition smant (s : bool) (m : positive) : Z := cond_Zopp s (Zpos m).

(** [math.Floor]: the greatest integral value not above [f]; zeros,
    infinities and NaN are returned unchanged. *)
Definition Floor (f : float64) : float64 :=
  match f with
  | S754_finite s m e =>
      if 0 <=? e then f
      else binary_normalize prec emax (smant s m / 2 ^ (- e)) 0 s
  | _ => f
  end.

(** The integer a finite float truncates to (toward zero). *)
Definition trunc (f : float64) : Z :=
  match f with
  | S754_finite s m e =>
      if 0 <=? e then smant s m * 2 ^ e
      else Z.quot (smant s m) (2 ^ (- e))
  | _ => 0
  end.

(** [uint32(f)]: the fractional part is discarded.  When the truncated
    value is not a [uint32] (or [f] is not finite) the language leaves
    the result to the implementation; the low 32 bits are kept here, and
    no theorem below depends on that choice. *)
Definition to_uint32 (f : float64) : Z := GoInt.uint32 (trunc f).

End Float64.

(** A shift record that has lost no set bit so far. *)
Definition clean (mrs : shr_record) : Prop :=
  shr_r mrs = false /\ shr_s mrs = false.

(** ** The rounding helper *)

(** Rounds a float to the nearest integer. *)
Definition round (f : Float64.float64) : Float64.float64 :=
  Float64.Floor (Float64.add f Float64.half).

(** ** [WindowsCommTimeouts] and the legacy translator *)

Record WindowsCommTimeouts : Type := mkCTO {
  ReadIntervalTimeout : Z;
  ReadTotalTimeoutMultiplier : Z;
  ReadTotalTimeoutConstant : Z;
  WriteTotalTimeoutMultiplier : Z;
  WriteTotalTimeoutConstant : Z
}.

Definition defaultWindowsCommTimeouts : WindowsCommTimeouts :=
  {| ReadIntervalTimeout := 1;
     ReadTotalTimeoutMultiplier := 0;
     ReadTotalTimeoutConstant := 100;
     WriteTotalTimeoutMultiplier := 0;
     WriteTotalTimeoutConstant := 100 |}.

(** Assignment to one field of a [WindowsCommTimeouts] variable. *)
Definition set_ReadIntervalTimeout (c : WindowsCommTimeouts) (v : Z) :=
  mkCTO v (ReadTotalTimeoutMultiplier c) (ReadTotalTimeoutConstant c)
        (WriteTotalTimeoutMultiplier c) (WriteTotalTimeoutConstant c).

Definition set_ReadTotalTimeoutMultiplier (c : WindowsCommTimeouts) (v : Z) :=
  mkCTO (ReadIntervalTimeout c) v (ReadTotalTimeoutConstant c)
        (WriteTotalTimeoutMultiplier c) (WriteTotalTimeoutConstant c).

Definition set_ReadTotalTimeoutConstant (c : WindowsCommTimeouts) (v : Z) :=
  mkCTO (ReadIntervalTimeout c) (ReadTotalTimeoutMultiplier c) v
        (WriteTotalTimeoutMultiplier c) (WriteTotalTimeoutConstant c).

Definition set_WriteTotalTimeoutConstant (c : WindowsCommTimeouts) (v : Z) :=
  mkCTO (ReadIntervalTimeout c) (ReadTotalTimeoutMultiplier c)
        (ReadTotalTimeoutConstant c) (WriteTotalTimeoutMultiplier c) v.

(** Modelled from the spec: the declaration of [OpenOptions] (serial.go)
    is not among the sources.  The legacy translator reads two of its
    fields, both of type [uint]: the inter-character timeout in
    milliseconds and the minimum read size. *)
Record OpenOptions : Type := mkOpenOptions {
  InterCharacterTimeout : Z;
  MinimumReadSize : Z
}.

(** Both fields hold [uint] values. *)
Definition wf_options (o : OpenOptions) : Prop :=
  GoInt.is_uint (InterCharacterTimeout o) /\ GoInt.is_uint (MinimumReadSize o).

Definition MAXDWORD : Z := 2 ^ 32 - 1.

(** The two locals [ctoFromOpenOptions] computes before it branches. *)
Definition timeoutConstant (options : OpenOptions) : Z :=
  Float64.to_uint32
    (round (Float64.div (Float64.of_int (InterCharacterTimeout options))
                        Float64.hundred)).

Definition readIntervalTimeout (options : OpenOptions) : Z :=
  GoInt.uint32 (MinimumReadSize options).

(** The three arms of the [if / else if / else] chain. *)
Inductive LegacyBranch : Type :=
| NonBlocking      (* timeoutConstant > 0 && readIntervalTimeout == 0 *)
| BlockForInput    (* readIntervalTimeout > 0 *)
| UseDefaults.     (* else *)

Definition legacyBranch (tc ri : Z) : LegacyBranch :=
  if (0 <? tc) && (ri =? 0) then NonBlocking
  else if 0 <? ri then BlockForInput
  else UseDefaults.

(** The zero value [var timeouts WindowsCommTimeouts]. *)
Definition zeroWindowsCommTimeouts : WindowsCommTimeouts :=
  mkCTO 0 0 0 0 0.

Definition ctoFromOpenOptions (options : OpenOptions) : WindowsCommTimeouts :=
  let timeouts := zeroWindowsCommTimeouts in
  let timeoutConstant := timeoutConstant options in
  let readIntervalTimeout := readIntervalTimeout options in
  match legacyBranch timeoutConstant readIntervalTimeout with
  | NonBlocking =>
      (* Assume we're setting for non blocking IO. *)
      let timeouts := set_ReadIntervalTimeout timeouts MAXDWORD in
      let timeouts := set_ReadTotalTimeoutMultiplier timeouts MAXDWORD in
      let timeouts := set_ReadTotalTimeoutConstant timeouts timeoutConstant in
      timeouts
  | BlockForInput =>
      (* Assume we want to block and wait for input. *)
      let timeouts := set_ReadIntervalTimeout timeouts readIntervalTimeout in
      let timeouts := set_ReadTotalTimeoutMultiplier timeouts 1 in
      let timeouts := set_ReadTotalTimeoutConstant timeouts 1 in
      timeouts
  | UseDefaults =>
      (* No idea what we intended, use defaults. *)
      let timeouts := set_ReadIntervalTimeout timeouts MAXDWORD in
      let timeouts := set_ReadTotalTimeoutMultiplier timeouts MAXDWORD in
      let timeouts := set_ReadTotalTimeoutConstant timeouts (MAXDWORD - 1) in
      timeouts
  end.

(** ** The package's errors *)

(** A non-nil [error] value.  [Errno] carries a [syscall.Errno]; it is
    never equal to one of the two package-level sentinels. *)
Inductive error : Type :=
| ErrNotImplementedOnOS
| ErrInvalidOrNilPort
| Errno (code : Z).

(** ** [Timeouts]: the platform-neutral timeout value *)

(** [time.Duration] is an [int64] count of nanoseconds. *)
Definition Duration : Type := Z.
Definition Millisecond : Duration := 1000000.

Record Timeouts : Type := mkTimeouts {
  ReadIntercharacter : Duration;
  ReadTotal : Duration;
  WriteTotal : Duration
}.

Definition DefaultTimeouts : Timeouts :=
  {| ReadIntercharacter := Millisecond;
     ReadTotal := Millisecond * 100;
     WriteTotal := Millisecond * 100 |}.

(** All three fields hold [int64] values. *)
Definition wf_timeouts (t : Timeouts) : Prop :=
  GoInt.is_int64 (ReadIntercharacter t) /\
  GoInt.is_int64 (ReadTotal t) /\
  GoInt.is_int64 (WriteTotal t).

(** ** The handle provider and the effect monad *)

Definition Handle : Type := Z.

(** [syscall.InvalidHandle] is [^Handle(0)]. *)
Definition InvalidHandle : Handle := 2 ^ 64 - 1.

(** One entry per call that leaves the process. *)
Inductive Call : Type :=
| SysCloseHandle (h : Handle)
| SysWriteFile (h : Handle) (buf : list Byte.byte)
| SysReadFile (h : Handle) (buf : list Byte.byte)
| SysSetCommTimeouts (h : Handle) (cto : WindowsCommTimeouts)
| SysPurgeComm (h : Handle) (flags : Z).

(** The operating system as the package sees it.  [syscall.CloseHandle],
    [syscall.WriteFile] and [syscall.ReadFile] report an optional errno
    (and a transfer count; [ReadFile] also the buffer as it left it);
    the two kernel32 procedures reached through [syscall.SyscallN] report
    the pair [r1, errno]. *)
Record HandleProvider (S : Type) : Type := mkProvider {
  osCloseHandle : Handle -> S -> option Z * S;
  osWriteFile : Handle -> list Byte.byte -> S -> (Z * option Z) * S;
  osReadFile : Handle -> list Byte.byte -> S -> (list Byte.byte * Z * option Z) * S;
  osSetCommTimeouts : Handle -> WindowsCommTimeouts -> S -> (Z * Z) * S;
  osPurgeComm : Handle -> Z -> S -> (Z * Z) * S
}.

Arguments osCloseHandle {S} _ _ _.
Arguments osWriteFile {S} _ _ _ _.
Arguments osReadFile {S} _ _ _ _.
Arguments osSetCommTimeouts {S} _ _ _ _.
Arguments osPurgeComm {S} _ _ _ _.

(** The world a method runs in: the provider's state and the calls made
    so far, oldest first. *)
Record World (S : Type) : Type := mkWorld {
  os : S;
  trace : list Call
}.

Arguments mkWorld {S} _ _.
Arguments os {S} _.
Arguments trace {S} _.

(** A method either returns or panics (nil pointer dereference). *)
Inductive Outcome (A : Type) : Type :=
| Returns (a : A)
| Panics.

Arguments Returns {A} _.
Arguments Panics {A}.

Definition M (S A : Type) : Type := World S -> Outcome A * World S.

Definition ret {S A : Type} (a : A) : M S A := fun w => (Returns a, w).

Definition bind {S A B : Type} (m : M S A) (k : A -> M S B) : M S B :=
  fun w =>
    match m w with
    | (Returns a, w') => k a w'
    | (Panics, w') => (Panics, w')
    end.

Definition panic {S A : Type} : M S A := fun w => (Panics, w).

Declare Scope go_scope.
Delimit Scope go_scope with go.
Notation "x <- m ;; k" := (bind m (fun x => k))
  (at level 61, m at next level, right associativity) : go_scope.
Notation "m ;;; k" := (bind m (fun _ => k))
  (at level 61, right associativity) : go_scope.
Local Open Scope go_scope.

(** Perform one provider call: record it, then let the provider answer. *)
Definition perform {S A : Type} (c : Call) (f : S -> A * S) : M S A :=
  fun w =>
    let '(a, s') := f (os w) in
    (Returns a, {| os := s'; trace := trace w ++ [c] |}).

(** An optional errno as an [error] interface value. *)
Definition errno_error (e : option Z) : option error := option_map Errno e.

(** ** The two build variants share these method signatures *)

Record PortMethods (S P : Type) : Type := mkMethods {
  mSetTimeouts : option P -> Timeouts -> M S (option error);
  mRead : option P -> list Byte.byte -> M S (list Byte.byte * Z * option error);
  mWrite : option P -> list Byte.byte -> M S (Z * option error)
}.

Arguments mSetTimeouts {S P} _ _ _.
Arguments mRead {S P} _ _ _.
Arguments mWrite {S P} _ _ _.

(** The two wrappers.  The value [SetTimeouts] returns is dropped. *)
Definition ReadWithTimeouts {S P : Type} (ops : PortMethods S P)
    (p : option P) (buf : list Byte.byte) (timeouts : Timeouts)
  : M S (list Byte.byte * Z * option error) :=
  mSetTimeouts ops p timeouts ;;;
  mRead ops p buf.

Definition WriteWithTimeouts {S P : Type} (ops : PortMethods S P)
    (p : option P) (buf : list Byte.byte) (timeouts : Timeouts)
  : M S (Z * option error) :=
  mSetTimeouts ops p timeouts ;;;
  mWrite ops p buf.

(** ** The Windows build: open_windows.go, timeouts_windows.go and the
       Windows [PurgeBuffers] *)

Module Windows.

Record serialPort : Type := mkPort { fd : Handle }.

(** The guard that opens [Close], [Write], [Read] and [SetTimeouts]:
    [p == nil || p.fd == syscall.Handle(0) || p.fd == syscall.InvalidHandle].
    The [||] chain stops at a nil [p] before [p.fd] is read. *)
Definition nilOrInvalid (p : option serialPort) : bool :=
  match p with
  | None => true
  | Some sp => (fd sp =? 0) || (fd sp =? InvalidHandle)
  end.

(** The driver parameters [SetTimeouts] has built when it reaches its
    last line: a copy of the defaults with three fields assigned. *)
Definition SetTimeouts_cto (timeouts : Timeouts) : WindowsCommTimeouts :=
  let cto := defaultWindowsCommTimeouts in
  let cto := set_ReadIntervalTimeout cto
    (GoInt.uint32 (GoInt.div (ReadIntercharacter timeouts) Millisecond)) in
  let cto := set_ReadTotalTimeoutConstant cto
    (GoInt.uint32 (GoInt.div (ReadTotal timeouts) Millisecond)) in
  let cto := set_WriteTotalTimeoutConstant cto
    (GoInt.uint32 (GoInt.div (WriteTotal timeouts) Millisecond)) in
  cto.

Definition PURGE_RXCLEAR : Z := 8.
Definition PURGE_TXCLEAR : Z := 4.

(** The [flags] word [purgeComm] hands to the kernel. *)
Definition purgeFlags (clearRx clearTx : bool) : Z :=
  let flags := 0 in
  let flags := if clearRx then Z.lor flags PURGE_RXCLEAR else flags in
  let flags := if clearTx then Z.lor flags PURGE_TXCLEAR else flags in
  flags.

Section WithProvider.

Context {S : Type}.
Variable K : HandleProvider S.

(** Reading [p.fd]: panics on a nil [p]. *)
Definition load_fd (p : option serialPort) : M S Handle :=
  match p with
  | Some sp => ret (fd sp)
  | None => panic
  end.

(** [r, _, err := syscall.SyscallN(...); if r == 0 { return err }; return nil] *)
Definition syscallResult (reply : Z * Z) : option error :=
  let '(r, err) := reply in
  if r =? 0 then Some (Errno err) else None.

Definition setCommTimeouts (h : Handle) (cto : WindowsCommTimeouts)
  : M S (option error) :=
  reply <- perform (SysSetCommTimeouts h cto) (osSetCommTimeouts K h cto) ;;
  ret (syscallResult reply).

Definition purgeComm (h : Handle) (clearRx clearTx : bool)
  : M S (option error) :=
  let flags := purgeFlags clearRx clearTx in
  reply <- perform (SysPurgeComm h flags) (osPurgeComm K h flags) ;;
  ret (syscallResult reply).

Definition Close (p : option serialPort) : M S (option error) :=
  if nilOrInvalid p then ret (Some ErrInvalidOrNilPort)
  else
    h <- load_fd p ;;
    e <- perform (SysCloseHandle h) (osCloseHandle K h) ;;
    ret (errno_error e).

Definition Write (p : option serialPort) (buf : list Byte.byte)
  : M S (Z * option error) :=
  if nilOrInvalid p then ret (0, Some ErrInvalidOrNilPort)
  else
    h <- load_fd p ;;
    reply <- perform (SysWriteFile h buf) (osWriteFile K h buf) ;;
    let '(n, err) := reply in
    ret (n, errno_error err).

(** The first component of the result is [buf] as the call left it. *)
Definition Read (p : option serialPort) (buf : list Byte.byte)
  : M S (list Byte.byte * Z * option error) :=
  if nilOrInvalid p then ret (buf, 0, Some ErrInvalidOrNilPort)
  else
    h <- load_fd p ;;
    reply <- perform (SysReadFile h buf) (osReadFile K h buf) ;;
    let '(buf', done, err) := reply in
    ret (buf', done, errno_error err).

(** Sets communication timeouts for next IO operations. *)
Definition SetTimeouts (p : option serialPort) (timeouts : Timeouts)
  : M S (option error) :=
  if nilOrInvalid p then ret (Some ErrInvalidOrNilPort)
  else
    let cto := SetTimeouts_cto timeouts in
    h <- load_fd p ;;
    setCommTimeouts h cto.

(** Purges input and output buffers. *)
Definition PurgeBuffers (p : option serialPort) (clearRx clearTx : bool)
  : M S (option error) :=
  h <- load_fd p ;;
  purgeComm h clearRx clearTx.

Definition methods : PortMethods S serialPort :=
  {| mSetTimeouts := SetTimeouts; mRead := Read; mWrite := Write |}.

End WithProvider.

End Windows.

(** ** Every other build: timeouts_other.go and the stubs beside it *)

Module Other.

Section WithProvider.

Context {S : Type}.

(** [io.ReadWriteCloser], the interface the struct embeds; no method
    below looks at it. *)
Variable ReadWriteCloser : Type.

Record serialPort : Type := mkPort { embedded : option ReadWriteCloser }.

Definition Read (m : option serialPort) (p : list Byte.byte)
  : M S (list Byte.byte * Z * option error) :=
  ret (p, 0, Some ErrNotImplementedOnOS).

Definition Write (m : option serialPort) (p : list Byte.byte)
  : M S (Z * option error) :=
  ret (0, Some ErrNotImplementedOnOS).

Definition Close (m : option serialPort) : M S (option error) :=
  ret (Some ErrNotImplementedOnOS).

(** Do nothing on target OS. *)
Definition SetTimeouts (p : option serialPort) (_ : Timeouts)
  : M S (option error) :=
  ret None.

(** Do nothing on target OS. *)
Definition PurgeBuffers (p : option serialPort) (_ _ : bool)
  : M S (option error) :=
  ret None.

Definition methods : PortMethods S serialPort :=
  {| mSetTimeouts := SetTimeouts; mRead := Read; mWrite := Write |}.

End WithProvider.

End Other.

(** ** The wording of the contract for the two wrappers

    "[SetTimeouts(spec)] followed by one raw read into [buffer]" and
    "[SetTimeouts(spec)] then one raw write of [buffer]": run the first
    step for its effect on the world alone, then return what the second
    step returns. *)

Definition SetTimeouts_then_Read {S : Type} (K : HandleProvider S)
    (p : option Windows.serialPort) (buffer : list Byte.byte) (spec : Timeouts)
  : M S (list Byte.byte * Z * option error) :=
  fun w =>
    let w1 := snd (Windows.SetTimeouts K p spec w) in
    Windows.Read K p buffer w1.

Definition SetTimeouts_then_Write {S : Type} (K : HandleProvider S)
    (p : option Windows.serialPort) (buffer : list Byte.byte) (spec : Timeouts)
  : M S (Z * option error) :=
  fun w =>
    let w1 := snd (Windows.SetTimeouts K p spec w) in
    Windows.Write K p buffer w1.

(** The provider calls a usable port makes for [SetTimeouts] followed by
    one transfer; none for a nil port or a zero / invalid handle. *)
Definition expected_calls (p : option Windows.serialPort) (spec : Timeouts)
    (transfer : Handle -> Call) : list Call :=
  match p with
  | Some sp =>
      if Windows.nilOrInvalid p then []
      else [SysSetCommTimeouts (Windows.fd sp) (Windows.SetTimeouts_cto spec);
            transfer (Windows.fd sp)]
  | None => []
  end.

(** ** A reference handle provider

    A small serial driver on which the methods can be run on concrete
    inputs: a set of open handles, the one timeout configuration the
    driver holds, and the bytes waiting in its receive buffer.  It
    refuses, as serial.sys does, a configuration whose read interval and
    read total constant are both [MAXDWORD]. *)

Module RefDriver.

Record State : Type := mkState {
  openHandles : list Handle;
  installed : WindowsCommTimeouts;
  rxQueue : list Byte.byte
}.

Definition ERROR_INVALID_HANDLE : Z := 6.
Definition ERROR_INVALID_PARAMETER : Z := 87.

Definition isOpen (h : Handle) (s : State) : bool :=
  existsb (Z.eqb h) (openHandles s).

Definition closeHandle (h : Handle) (s : State) : option Z * State :=
  if isOpen h s then
    (None, mkState (filter (fun x => negb (x =? h)) (openHandles s))
                   (installed s) (rxQueue s))
  else (Some ERROR_INVALID_HANDLE, s).

Definition writeFile (h : Handle) (buf : list Byte.byte) (s : State)
  : (Z * option Z) * State :=
  if isOpen h s then ((Z.of_nat (length buf), None), s)
  else ((0, Some ERROR_INVALID_HANDLE), s).

Definition readFile (h : Handle) (buf : list Byte.byte) (s : State)
  : (list Byte.byte * Z * option Z) * State :=
  if isOpen h s then
    let n := Nat.min (length buf) (length (rxQueue s)) in
    ((firstn n (rxQueue s) ++ skipn n buf, Z.of_nat n, None),
     mkState (openHandles s) (installed s) (skipn n (rxQueue s)))
  else ((buf, 0, Some ERROR_INVALID_HANDLE), s).

Definition setCommTimeouts (h : Handle) (cto : WindowsCommTimeouts) (s : State)
  : (Z * Z) * State :=
  if isOpen h s then
    if (ReadIntervalTimeout cto =? MAXDWORD)
       && (ReadTotalTimeoutConstant cto =? MAXDWORD)
    then ((0, ERROR_INVALID_PARAMETER), s)
    else ((1, 0), mkState (openHandles s) cto (rxQueue s))
  else ((0, ERROR_INVALID_HANDLE), s).

Definition purgeComm (h : Handle) (flags : Z) (s : State) : (Z * Z) * State :=
  if isOpen h s then
    ((1, 0),
     mkState (openHandles s) (installed s)
             (if Z.testbit flags 3 then [] else rxQueue s))
  else ((0, ERROR_INVALID_HANDLE), s).

Definition provider : HandleProvider State :=
  mkProvider State closeHandle writeFile readFile setCommTimeouts purgeComm.

(** One port, handle 7, open; the driver holds the default configuration
    and two bytes are waiting. *)
Definition boot : World State :=
  mkWorld (mkState [7] defaultWindowsCommTimeouts [Byte.x41; Byte.x42]) [].

Definition COM : option Windows.serialPort := Some (Windows.mkPort 7).

(** A request the driver refuses: both read fields come out as
    [MAXDWORD] milliseconds. *)
Definition refused : Timeouts :=
  mkTimeouts (4294967295 * Millisecond) (4294967295 * Millisecond)
             (100 * Millisecond).

End RefDriver.

(** ** Opening a port on Windows: [openInternal], [setCommState] and
       [setupComm] of open_windows.go, and the exported [Open] *)

Module OpenWindows.

Import Ascii String.

(** The remaining fields of [OpenOptions] that open_windows.go reads.
    Their declaration is not among the sources; each is used as an
    integer ([uint32(options.BaudRate)], [byte(options.DataBits)],
    [options.StopBits == 1], [byte(options.ParityMode)]), a bool or a
    string.  The two fields the legacy translator reads stay in
    [OpenOptions], here under [timing]. *)
Module Options.
Record t : Type := mk {
  PortName : string;
  BaudRate : Z;
  DataBits : Z;
  StopBits : Z;
  ParityMode : Z;
  RTSCTSFlowControl : bool;
  timing : OpenOptions
}.
End Options.

Record structDCB : Type := mkDCB {
  DCBlength : Z;
  BaudRate : Z;
  flags : list Z;
  wReserved : Z;
  XonLim : Z;
  XoffLim : Z;
  ByteSize : Z;
  Parity : Z;
  StopBits : Z;
  XonChar : Z;
  XoffChar : Z;
  ErrorChar : Z;
  EofChar : Z;
  EvtChar : Z;
  wReserved1 : Z
}.

(** [var params structDCB] *)
Definition zeroDCB : structDCB :=
  mkDCB 0 0 [0; 0; 0; 0] 0 0 0 0 0 0 0 0 0 0 0 0.

(** [unsafe.Sizeof(params)]: two [uint32], four bytes, three [uint16],
    eight bytes and one more [uint16], with no padding. *)
Definition sizeof_structDCB : Z := 28.

(** Conversion to [byte]: keep the low 8 bits. *)
Definition byte (x : Z) : Z := x mod 2 ^ 8.

Definition set_DCBlength (d : structDCB) (v : Z) : structDCB :=
  mkDCB v (BaudRate d) (flags d) (wReserved d) (XonLim d) (XoffLim d)
        (ByteSize d) (Parity d) (StopBits d) (XonChar d) (XoffChar d)
        (ErrorChar d) (EofChar d) (EvtChar d) (wReserved1 d).

Definition set_BaudRate (d : structDCB) (v : Z) : structDCB :=
  mkDCB (DCBlength d) v (flags d) (wReserved d) (XonLim d) (XoffLim d)
        (ByteSize d) (Parity d) (StopBits d) (XonChar d) (XoffChar d)
        (ErrorChar d) (EofChar d) (EvtChar d) (wReserved1 d).

Definition set_flags (d : structDCB) (v : list Z) : structDCB :=
  mkDCB (DCBlength d) (BaudRate d) v (wReserved d) (XonLim d) (XoffLim d)
        (ByteSize d) (Parity d) (StopBits d) (XonChar d) (XoffChar d)
        (ErrorChar d) (EofChar d) (EvtChar d) (wReserved1 d).

Definition set_ByteSize (d : structDCB) (v : Z) : structDCB :=
  mkDCB (DCBlength d) (BaudRate d) (flags d) (wReserved d) (XonLim d) (XoffLim d)
        v (Parity d) (StopBits d) (XonChar d) (XoffChar d)
        (ErrorChar d) (EofChar d) (EvtChar d) (wReserved1 d).

Definition set_Parity (d : structDCB) (v : Z) : structDCB :=
  mkDCB (DCBlength d) (BaudRate d) (flags d) (wReserved d) (XonLim d) (XoffLim d)
        (ByteSize d) v (StopBits d) (XonChar d) (XoffChar d)
        (ErrorChar d) (EofChar d) (EvtChar d) (wReserved1 d).

Definition set_StopBits (d : structDCB) (v : Z) : structDCB :=
  mkDCB (DCBlength d) (BaudRate d) (flags d) (wReserved d) (XonLim d) (XoffLim d)
        (ByteSize d) (Parity d) v (XonChar d) (XoffChar d)
        (ErrorChar d) (EofChar d) (EvtChar d) (wReserved1 d).

(** [a[i] = f(a[i])] on an array; the two indices used are in range. *)
Fixpoint update (i : nat) (f : Z -> Z) (a : list Z) : list Z :=
  match a, i with
  | [], _ => []
  | x :: rest, O => f x :: rest
  | x :: rest, Datatypes.S j => x :: update j f rest
  end.

(** [params.flags[i] = v] and [params.flags[i] |= v]. *)
Definition flag_assign (d : structDCB) (i : nat) (v : Z) : structDCB :=
  set_flags d (update i (fun _ => v) (flags d)).

Definition flag_or (d : structDCB) (i : nat) (v : Z) : structDCB :=
  set_flags d (update i (fun x => Z.lor x v) (flags d)).

(** The [DCB] [setCommState] has filled in when it reaches the system
    call.  [PARITY_NONE] is a constant of the package whose declaration
    is not among the sources. *)
Definition setCommState_params (PARITY_NONE : Z) (options : Options.t)
  : structDCB :=
  let params := zeroDCB in
  let params := set_DCBlength params (GoInt.uint32 sizeof_structDCB) in
  let params := flag_assign params 0 1 in       (* fBinary *)
  let params := flag_or params 0 16 in          (* Assert DSR *)
  let params :=
    if negb (Options.ParityMode options =? PARITY_NONE) then
      let params := flag_or params 0 3 in       (* fParity *)
      set_Parity params (byte (Options.ParityMode options))
    else params in
  let params :=
    if Options.StopBits options =? 1 then set_StopBits params 0
    else if Options.StopBits options =? 2 then set_StopBits params 2
    else params in
  let params := set_BaudRate params (GoInt.uint32 (Options.BaudRate options)) in
  let params := set_ByteSize params (byte (Options.DataBits options)) in
  let params :=
    if Options.RTSCTSFlowControl options then
      let params := flag_or params 0 4 in       (* fOutxCtsFlow = 0x1 *)
      flag_or params 1 32                       (* fRtsControl = RTS_CONTROL_HANDSHAKE *)
    else params in
  params.

(** The first statement of [openInternal]: a non-empty name that does
    not start with a backslash gets the device prefix. *)
Definition devicePath (PortName : string) : string :=
  match PortName with
  | String c _ =>
      if negb (Ascii.eqb c "\"%char) then append "\\.\" PortName else PortName
  | EmptyString => PortName
  end.

(** The arguments [openInternal] passes to [syscall.CreateFile]. *)
Definition GENERIC_READ : Z := 2147483648.
Definition GENERIC_WRITE : Z := 1073741824.
Definition OPEN_EXISTING : Z := 3.
Definition FILE_ATTRIBUTE_NORMAL : Z := 128.

(** The calls of the open path, with the calls of an open port among
    them. *)
Inductive OpenCall : Type :=
| Base (c : Call)
| SysCreateFile (name : string) (access mode createmode attrs : Z)
| SysSetCommState (h : Handle) (params : structDCB)
| SysSetupComm (h : Handle) (inq outq : Z).

(** The handle provider together with what only the open path needs.
    [syscall.UTF16PtrFromString] makes no system call; it reports an
    optional errno.  [syscall.CreateFile] reports a handle and an
    optional errno. *)
Record OpenProvider (S : Type) : Type := mkOpenProvider {
  base : HandleProvider S;
  UTF16PtrFromString : string -> option Z;
  osCreateFile : string -> S -> (Handle * option Z) * S;
  osSetCommState : Handle -> structDCB -> S -> (Z * Z) * S;
  osSetupComm : Handle -> Z -> Z -> S -> (Z * Z) * S
}.

Arguments base {S} _.
Arguments UTF16PtrFromString {S} _ _.
Arguments osCreateFile {S} _ _ _.
Arguments osSetCommState {S} _ _ _ _.
Arguments osSetupComm {S} _ _ _ _ _.

(** The provider state paired with the journal of every call, oldest
    first. *)
Definition Journal (S : Type) : Type := (S * list OpenCall)%type.

Definition journaled {S A : Type} (c : OpenCall) (f : S -> A * S)
  : Journal S -> A * Journal S :=
  fun j =>
    let '(a, s') := f (fst j) in
    (a, (s', snd j ++ [c])).

(** The handle provider of an [OpenProvider], writing the journal. *)
Definition recorded {S : Type} (P : OpenProvider S) : HandleProvider (Journal S) :=
  mkProvider (Journal S)
    (fun h => journaled (Base (SysCloseHandle h)) (osCloseHandle (base P) h))
    (fun h buf => journaled (Base (SysWriteFile h buf)) (osWriteFile (base P) h buf))
    (fun h buf => journaled (Base (SysReadFile h buf)) (osReadFile (base P) h buf))
    (fun h cto =>
       journaled (Base (SysSetCommTimeouts h cto)) (osSetCommTimeouts (base P) h cto))
    (fun h fl => journaled (Base (SysPurgeComm h fl)) (osPurgeComm (base P) h fl)).

Section WithProvider.

Context {S : Type}.
Variable P : OpenProvider S.
Variable PARITY_NONE : Z.

(** One call of the open path. *)
Definition performOpen {A : Type} (c : OpenCall) (f : S -> A * S)
  : M (Journal S) A :=
  fun w =>
    let '(a, j) := journaled c f (os w) in
    (Returns a, mkWorld j (trace w)).

Definition setCommState (h : Handle) (options : Options.t)
  : M (Journal S) (option error) :=
  let params := setCommState_params PARITY_NONE options in
  reply <- performOpen (SysSetCommState h params) (osSetCommState P h params) ;;
  ret (Windows.syscallResult reply).

Definition setupComm (h : Handle) (inq outq : Z) : M (Journal S) (option error) :=
  reply <- performOpen (SysSetupComm h inq outq) (osSetupComm P h inq outq) ;;
  ret (Windows.syscallResult reply).

(** [options.PortName = ...] *)
Definition with_PortName (options : Options.t) (name : string) : Options.t :=
  Options.mk name (Options.BaudRate options) (Options.DataBits options)
    (Options.StopBits options) (Options.ParityMode options)
    (Options.RTSCTSFlowControl options) (Options.timing options).

(** The deferred function: [if err != nil { syscall.CloseHandle(h) }],
    run on the way out with the value [err] holds at the [return]. *)
Definition closeOnError (h : Handle)
    (result : option Windows.serialPort * option error)
  : M (Journal S) (option Windows.serialPort * option error) :=
  match snd result with
  | Some _ =>
      perform (SysCloseHandle h) (osCloseHandle (recorded P) h) ;;;
      ret result
  | None => ret result
  end.

Definition openInternal (options : Options.t)
  : M (Journal S) (option Windows.serialPort * option error) :=
  let options := with_PortName options (devicePath (Options.PortName options)) in
  match UTF16PtrFromString P (Options.PortName options) with
  | Some e => ret (None, Some (Errno e))
  | None =>
      let name := Options.PortName options in
      created <- performOpen
        (SysCreateFile name (Z.lor GENERIC_READ GENERIC_WRITE) 0
                       OPEN_EXISTING FILE_ATTRIBUTE_NORMAL)
        (osCreateFile P name) ;;
      let '(h, err) := created in
      match err with
      | Some e => ret (None, Some (Errno e))
      | None =>
          result <-
            (err <- setCommState h options ;;
             match err with
             | Some e => ret (None, Some e)
             | None =>
                 err <- setupComm h 64 64 ;;
                 match err with
                 | Some e => ret (None, Some e)
                 | None =>
                     let cto := ctoFromOpenOptions (Options.timing options) in
                     err <- Windows.setCommTimeouts (recorded P) h cto ;;
                     match err with
                     | Some e => ret (None, Some e)
                     | None =>
                         let port := Windows.mkPort h in
                         ret (Some port, None)
                     end
                 end
             end) ;;
          closeOnError h result
      end
  end.

(** [type Port struct { *serialPort }] *)
Record Port : Type := mkPortStruct { embedded : option Windows.serialPort }.

(** Open creates a [serial.Port] based on the supplied options struct. *)
Definition Open (options : Options.t)
  : M (Journal S) (option Port * option error) :=
  result <- openInternal options ;;
  let '(port, err) := result in
  match err with
  | Some e => ret (None, Some e)
  | None => ret (Some (mkPortStruct port), None)
  end.

(** A method of [*serialPort] called through a [*Port]: the selector
    reads the embedded pointer out of the struct first, which panics on
    a nil [*Port]. *)
Definition promoted {A : Type} (p : option Port)
    (method : option Windows.serialPort -> M (Journal S) A) : M (Journal S) A :=
  match p with
  | Some port => method (embedded port)
  | None => panic
  end.

End WithProvider.

End OpenWindows.

(** ** A reference provider for the open path

    The reference driver with one device, [\\.\COM7], that opens as
    handle 7 unless it is open already.  It refuses a DCB with a zero
    baud rate, and a name with a NUL character in it cannot be
    converted. *)

Module RefOpenDriver.

Import Ascii String.

Definition ERROR_FILE_NOT_FOUND : Z := 2.
Definition ERROR_ACCESS_DENIED : Z := 5.
Definition EINVAL : Z := 536870951.

Fixpoint hasNUL (s : string) : bool :=
  match s with
  | EmptyString => false
  | String c rest => Ascii.eqb c zero || hasNUL rest
  end.

Definition utf16PtrFromString (s : string) : option Z :=
  if hasNUL s then Some EINVAL else None.

Definition createFile (name : string) (s : RefDriver.State)
  : (Handle * option Z) * RefDriver.State :=
  if String.eqb name "\\.\COM7" then
    if RefDriver.isOpen 7 s then ((InvalidHandle, Some ERROR_ACCESS_DENIED), s)
    else ((7, None),
          RefDriver.mkState (7 :: RefDriver.openHandles s)
                            (RefDriver.installed s) (RefDriver.rxQueue s))
  else ((InvalidHandle, Some ERROR_FILE_NOT_FOUND), s).

Definition setCommState (h : Handle) (params : OpenWindows.structDCB)
    (s : RefDriver.State) : (Z * Z) * RefDriver.State :=
  if RefDriver.isOpen h s then
    if OpenWindows.BaudRate params =? 0
    then ((0, RefDriver.ERROR_INVALID_PARAMETER), s)
    else ((1, 0), s)
  else ((0, RefDriver.ERROR_INVALID_HANDLE), s).

Definition setupComm (h : Handle) (inq outq : Z) (s : RefDriver.State)
  : (Z * Z) * RefDriver.State :=
  if RefDriver.isOpen h s then ((1, 0), s)
  else ((0, RefDriver.ERROR_INVALID_HANDLE), s).

Definition provider : OpenWindows.OpenProvider RefDriver.State :=
  OpenWindows.mkOpenProvider RefDriver.State RefDriver.provider
    utf16PtrFromString createFile setCommState setupComm.

(** Nothing open, nothing journaled. *)
Definition boot : World (OpenWindows.Journal RefDriver.State) :=
  mkWorld (RefDriver.mkState [] defaultWindowsCommTimeouts [Byte.x41; Byte.x42], [])
          [].

Definition PARITY_NONE : Z := 0.

(** 9600 baud, 8 data bits, no parity, 1 stop bit on [COM7], with the
    given legacy timing. *)
Definition COM7 (timing : OpenOptions) : OpenWindows.Options.t :=
  OpenWindows.Options.mk "COM7" 9600 8 1 PARITY_NONE false timing.

(** The same options for a name that cannot be converted. *)
Definition badName : OpenWindows.Options.t :=
  OpenWindows.Options.mk (String zero "COM7") 9600 8 1 PARITY_NONE false
    (mkOpenOptions 100 0).

(** The device path of [COM7]. *)
Definition COM7path : string := "\\.\COM7".

End RefOpenDriver.

(** * Properties *)

(** ** Fixed-width conversions *)

Lemma uint32_range (x : Z) : 0 <= GoInt.uint32 x < 2 ^ 32.
Proof. unfold GoInt.uint32. apply Z.mod_pos_bound. lia. Qed.

Lemma uint32_small (x : Z) : 0 <= x < 2 ^ 32 -> GoInt.uint32 x = x.
Proof. intros H. unfold GoInt.uint32. apply Z.mod_small. exact H. Qed.

Lemma timeoutConstant_range (o : OpenOptions) : 0 <= timeoutConstant o < 2 ^ 32.
Proof. unfold timeoutConstant, Float64.to_uint32. apply uint32_range. Qed.

Lemma readIntervalTimeout_range (o : OpenOptions) :
  0 <= readIntervalTimeout o < 2 ^ 32.
Proof. unfold readIntervalTimeout. apply uint32_range. Qed.

(** ** The legacy translator, arm by arm *)

Lemma legacyBranch_NonBlocking (tc ri : Z) :
  legacyBranch tc ri = NonBlocking <-> 0 < tc /\ ri = 0.
Proof.
  unfold legacyBranch.
  destruct (0 <? tc) eqn:Htc; destruct (ri =? 0) eqn:Hri; simpl;
    try destruct (0 <? ri) eqn:Hpos;
    rewrite ?Z.ltb_lt, ?Z.ltb_ge, ?Z.eqb_eq, ?Z.eqb_neq in *;
    split; try discriminate; try tauto; intros [? ?]; lia.
Qed.

Lemma legacyBranch_BlockForInput (tc ri : Z) :
  legacyBranch tc ri = BlockForInput <-> 0 < ri.
Proof.
  unfold legacyBranch.
  destruct (0 <? tc) eqn:Htc; destruct (ri =? 0) eqn:Hri; simpl;
    try destruct (0 <? ri) eqn:Hpos;
    rewrite ?Z.ltb_lt, ?Z.ltb_ge, ?Z.eqb_eq, ?Z.eqb_neq in *;
    split; try discriminate; try tauto; intros; lia.
Qed.

Lemma legacyBranch_UseDefaults (tc ri : Z) :
  legacyBranch tc ri = UseDefaults <-> ~ (0 < tc /\ ri = 0) /\ ~ 0 < ri.
Proof.
  unfold legacyBranch.
  destruct (0 <? tc) eqn:Htc; destruct (ri =? 0) eqn:Hri; simpl;
    try destruct (0 <? ri) eqn:Hpos;
    rewrite ?Z.ltb_lt, ?Z.ltb_ge, ?Z.eqb_eq, ?Z.eqb_neq in *;
    split; try discriminate; try tauto; intros; try lia.
Qed.

Lemma cto_NonBlocking (o : OpenOptions) :
  legacyBranch (timeoutConstant o) (readIntervalTimeout o) = NonBlocking ->
  ctoFromOpenOptions o = mkCTO MAXDWORD MAXDWORD (timeoutConstant o) 0 0.
Proof. intros H. unfold ctoFromOpenOptions. rewrite H. reflexivity. Qed.

Lemma cto_BlockForInput (o : OpenOptions) :
  legacyBranch (timeoutConstant o) (readIntervalTimeout o) = BlockForInput ->
  ctoFromOpenOptions o = mkCTO (readIntervalTimeout o) 1 1 0 0.
Proof. intros H. unfold ctoFromOpenOptions. rewrite H. reflexivity. Qed.

Lemma cto_UseDefaults (o : OpenOptions) :
  legacyBranch (timeoutConstant o) (readIntervalTimeout o) = UseDefaults ->
  ctoFromOpenOptions o = mkCTO MAXDWORD MAXDWORD (MAXDWORD - 1) 0 0.
Proof. intros H. unfold ctoFromOpenOptions. rewrite H. reflexivity. Qed.

(** ** binary64 rounding, as far as the legacy constant needs it *)

Lemma digits2_pos_bounds (p : positive) :
  2 ^ (Zpos (digits2_pos p) - 1) <= Zpos p < 2 ^ Zpos (digits2_pos p).
Proof.
  induction p as [p IH | p IH |]; simpl digits2_pos.
  - rewrite Pos2Z.inj_succ.
    replace (Z.succ (Zpos (digits2_pos p)) - 1) with (Z.succ (Zpos (digits2_pos p) - 1)) by lia.
    rewrite !Z.pow_succ_r by lia. lia.
  - rewrite Pos2Z.inj_succ.
    replace (Z.succ (Zpos (digits2_pos p)) - 1) with (Z.succ (Zpos (digits2_pos p) - 1)) by lia.
    rewrite !Z.pow_succ_r by lia. lia.
  - simpl. lia.
Qed.

Lemma digits2_pos_unique (p : positive) (d : Z) :
  2 ^ (d - 1) <= Zpos p < 2 ^ d -> Zpos (digits2_pos p) = d.
Proof.
  intros [Hlo Hhi].
  pose proof (digits2_pos_bounds p) as [Hlo' Hhi'].
  assert (Hd : 0 < d).
  { destruct (Z_lt_le_dec 0 d) as [|Hneg]; [assumption|].
    exfalso.
    destruct (Z.eq_dec d 0) as [-> | Hnz].
    - simpl in Hhi. lia.
    - rewrite Z.pow_neg_r in Hhi by lia. lia. }
  destruct (Z_lt_le_dec (Zpos (digits2_pos p)) d) as [Hlt | Hge].
  - assert (2 ^ Zpos (digits2_pos p) <= 2 ^ (d - 1)) by (apply Z.pow_le_mono_r; lia).
    lia.
  - destruct (Z.eq_dec (Zpos (digits2_pos p)) d) as [|Hne]; [assumption|].
    assert (2 ^ d <= 2 ^ (Zpos (digits2_pos p) - 1)) by (apply Z.pow_le_mono_r; lia).
    lia.
Qed.

Lemma iter_pos_nat {A : Type} (f : A -> A) (p : positive) (x : A) :
  iter_pos f p x = Nat.iter (Pos.to_nat p) f x.
Proof.
  revert x. induction p as [p IH | p IH |]; intros x; simpl iter_pos.
  - rewrite !IH. rewrite Pos2Nat.inj_xI.
    replace (S (2 * Pos.to_nat p)) with (Pos.to_nat p + (Pos.to_nat p + 1))%nat by lia.
    rewrite !Nat.iter_add. simpl. reflexivity.
  - rewrite !IH. rewrite Pos2Nat.inj_xO.
    replace (2 * Pos.to_nat p)%nat with (Pos.to_nat p + Pos.to_nat p)%nat by lia.
    rewrite Nat.iter_add. reflexivity.
  - reflexivity.
Qed.

(** One right shift of a non-negative mantissa halves it; the record
    stays free of round and sticky bits as long as the bit shifted out
    is zero. *)
Lemma shr_1_m (mrs : shr_record) :
  0 <= shr_m mrs -> shr_m (shr_1 mrs) = shr_m mrs / 2.
Proof.
  destruct mrs as [m r s]. cbn [shr_m]. intros Hm.
  destruct m as [| [q | q |] | q]; cbn [shr_1 shr_m]; try lia.
  - reflexivity.
  - apply Z.div_unique with 1; lia.
  - apply Z.div_unique with 0; lia.
  - reflexivity.
Qed.

Lemma shr_1_clean (mrs : shr_record) :
  0 <= shr_m mrs -> clean mrs -> shr_m mrs mod 2 = 0 -> clean (shr_1 mrs).
Proof.
  destruct mrs as [m r s]. unfold clean. cbn [shr_m shr_r shr_s].
  intros Hm [-> ->] Hev.
  destruct m as [| [q | q |] | q]; cbn [shr_1 shr_r shr_s orb];
    try (split; reflexivity); try lia.
  - exfalso. assert (H : Zpos q~1 = 1 + Zpos q * 2) by lia.
    rewrite H, Z.mod_add in Hev by lia. discriminate.
  - exfalso. discriminate.
Qed.

Lemma shr_iter_m (n : nat) (mrs : shr_record) :
  0 <= shr_m mrs ->
  shr_m (Nat.iter n shr_1 mrs) = shr_m mrs / 2 ^ Z.of_nat n.
Proof.
  intros Hm. induction n as [| n IH].
  - simpl. rewrite Z.div_1_r. reflexivity.
  - rewrite Nat2Z.inj_succ, Z.pow_succ_r by lia. simpl Nat.iter.
    rewrite shr_1_m.
    + rewrite IH. rewrite Z.div_div by lia. f_equal. lia.
    + rewrite IH. apply Z.div_pos; lia.
Qed.

Lemma shr_iter_clean (n : nat) (mrs : shr_record) :
  0 <= shr_m mrs -> clean mrs -> shr_m mrs mod 2 ^ Z.of_nat n = 0 ->
  clean (Nat.iter n shr_1 mrs).
Proof.
  intros Hm Hc. induction n as [| n IH]; intros Hdiv.
  - exact Hc.
  - rewrite Nat2Z.inj_succ, Z.pow_succ_r in Hdiv by lia.
    assert (Hpow : 0 < 2 ^ Z.of_nat n) by (apply Z.pow_pos_nonneg; lia).
    assert (Hd : shr_m mrs = 2 * 2 ^ Z.of_nat n * (shr_m mrs / (2 * 2 ^ Z.of_nat n))).
    { apply Z.div_exact; lia. }
    simpl Nat.iter. apply shr_1_clean.
    + rewrite shr_iter_m by assumption. apply Z.div_pos; lia.
    + apply IH. rewrite Hd.
      replace (2 * 2 ^ Z.of_nat n * (shr_m mrs / (2 * 2 ^ Z.of_nat n)))
        with ((2 * (shr_m mrs / (2 * 2 ^ Z.of_nat n))) * 2 ^ Z.of_nat n) by ring.
      apply Z.mod_mul. lia.
    + rewrite shr_iter_m by assumption.
      rewrite Hd at 1.
      replace (2 * 2 ^ Z.of_nat n * (shr_m mrs / (2 * 2 ^ Z.of_nat n)))
        with ((2 * (shr_m mrs / (2 * 2 ^ Z.of_nat n))) * 2 ^ Z.of_nat n) by ring.
      rewrite Z.div_mul by lia.
      rewrite Z.mul_comm. apply Z.mod_mul. lia.
Qed.

Lemma shr_record_of_loc_m (m : Z) (l : location) :
  shr_m (shr_record_of_loc m l) = m.
Proof. destruct l as [| []]; reflexivity. Qed.

Lemma loc_of_clean (mrs : shr_record) :
  clean mrs -> loc_of_shr_record mrs = loc_Exact.
Proof. destruct mrs as [m r s]. intros [Hr Hs]. simpl in *. subst. reflexivity. Qed.

Lemma round_nearest_even_cases (m : Z) (l : location) :
  round_nearest_even m l = m \/ round_nearest_even m l = m + 1.
Proof.
  destruct l as [| []]; simpl; auto.
  destruct (Z.even m); auto.
Qed.

(** Shifting a non-negative mantissa right by [n >= 0] places. *)
Lemma shr_spec (m e n : Z) (l : location) :
  0 <= m -> 0 <= n ->
  exists mrs,
    shr (shr_record_of_loc m l) e n = (mrs, e + n) /\
    shr_m mrs = m / 2 ^ n /\
    (l = loc_Exact -> m mod 2 ^ n = 0 -> clean mrs).
Proof.
  intros Hm Hn. destruct n as [| n | n]; [| | lia].
  - exists (shr_record_of_loc m l). cbn [shr]. rewrite Z.add_0_r.
    split; [reflexivity |]. split.
    + rewrite shr_record_of_loc_m, Z.div_1_r. reflexivity.
    + intros -> _. split; reflexivity.
  - exists (iter_pos shr_1 n (shr_record_of_loc m l)). cbn [shr].
    split; [reflexivity |].
    rewrite iter_pos_nat. split.
    + rewrite shr_iter_m by (rewrite shr_record_of_loc_m; exact Hm).
      rewrite shr_record_of_loc_m, positive_nat_Z. reflexivity.
    + intros -> Hdiv. apply shr_iter_clean.
      * exact Hm.
      * split; reflexivity.
      * rewrite positive_nat_Z. exact Hdiv.
Qed.

(** Rounding a positive integer mantissa of at least 53 digits to
    binary64, in the normal range: the result is a 53-digit float one of
    the two neighbours of the exact value, and the exact value itself
    when that is representable.  Values are compared after scaling by
    [2 ^ p]. *)
Lemma binary_round_aux_faithful (sx : bool) (mx : positive) (ex p : Z)
    (lx : location) :
  53 <= Zpos (digits2_pos mx) ->
  -1074 <= ex + (Zpos (digits2_pos mx) - 53) < 971 ->
  0 <= ex + p ->
  exists (m : positive) (e u : Z),
    binary_round_aux 53 1024 sx (Zpos mx) ex lx = S754_finite sx m e /\
    Zpos (digits2_pos m) = 53 /\
    ex <= e /\ ex + p <= u /\
    Zpos mx * 2 ^ (ex + p) - 2 ^ u < Zpos m * 2 ^ (e + p)
      <= Zpos mx * 2 ^ (ex + p) + 2 ^ u /\
    2 ^ 52 * 2 ^ u <= Zpos mx * 2 ^ (ex + p) /\
    (lx = loc_Exact -> (Zpos mx * 2 ^ (ex + p)) mod 2 ^ u = 0 ->
     Zpos m * 2 ^ (e + p) = Zpos mx * 2 ^ (ex + p)).
Proof.
  set (d := Zpos (digits2_pos mx)). intros Hd Hrange Hp.
  set (n := d - 53).
  pose proof (digits2_pos_bounds mx) as Hmx. fold d in Hmx.
  assert (Hn : 0 <= n) by (unfold n; lia).
  assert (Hpn : 0 < 2 ^ n) by (apply Z.pow_pos_nonneg; lia).
  assert (Hc : 0 < 2 ^ (ex + p)) by (apply Z.pow_pos_nonneg; lia).
  assert (Hd1 : 2 ^ (d - 1) = 2 ^ 52 * 2 ^ n).
  { rewrite <- Z.pow_add_r by lia. f_equal. unfold n. lia. }
  assert (Hd2 : 2 ^ d = 2 ^ 53 * 2 ^ n).
  { rewrite <- Z.pow_add_r by lia. f_equal. unfold n. lia. }
  (* first shift *)
  unfold binary_round_aux.
  assert (Hshift1 : fexp 53 1024 (Zdigits2 (Zpos mx) + ex) - ex = n).
  { unfold fexp, emin. cbn [Zdigits2]. fold d. unfold n. lia. }
  unfold shr_fexp at 1. rewrite Hshift1.
  destruct (shr_spec (Zpos mx) ex n lx ltac:(lia) Hn) as (mrs1 & -> & Hm1 & Hclean1).
  set (m0 := Zpos mx / 2 ^ n) in *.
  assert (Hm0 : m0 * 2 ^ n <= Zpos mx < (m0 + 1) * 2 ^ n).
  { unfold m0. pose proof (Z.mul_div_le (Zpos mx) (2 ^ n) Hpn).
    pose proof (Z.mul_succ_div_gt (Zpos mx) (2 ^ n) Hpn). lia. }
  assert (Hm0r : 2 ^ 52 <= m0 < 2 ^ 53).
  { split.
    - unfold m0. apply Z.div_le_lower_bound; lia.
    - unfold m0. apply Z.div_lt_upper_bound; lia. }
  set (m1 := round_nearest_even (shr_m mrs1) (loc_of_shr_record mrs1)).
  assert (Hm1c : m1 = m0 \/ m1 = m0 + 1).
  { unfold m1. rewrite Hm1. apply round_nearest_even_cases. }
  assert (Hm1x : lx = loc_Exact -> Zpos mx mod 2 ^ n = 0 -> m1 = m0).
  { intros Hl Hdiv. unfold m1. rewrite (loc_of_clean _ (Hclean1 Hl Hdiv)).
    simpl. exact Hm1. }
  assert (Hu : 2 ^ (ex + n + p) = 2 ^ n * 2 ^ (ex + p)).
  { rewrite <- Z.pow_add_r by lia. f_equal. lia. }
  assert (Hm1pos : 0 < m1) by lia.
  destruct m1 as [| m1p | m1p] eqn:Em1; [lia | | lia].
  destruct (Z_lt_le_dec (Zpos m1p) (2 ^ 53)) as [Hlt | Hge].
  - (* no renormalisation *)
    assert (Hdig : Zpos (digits2_pos m1p) = 53).
    { apply digits2_pos_unique. simpl (53 - 1). lia. }
    assert (Hshift2 : fexp 53 1024 (Zdigits2 (Zpos m1p) + (ex + n)) - (ex + n) = 0).
    { unfold fexp, emin. cbn [Zdigits2]. rewrite Hdig. lia. }
    unfold shr_fexp. rewrite Hshift2. cbn [shr shr_record_of_loc shr_m].
    replace (ex + n <=? 1024 - 53) with true by (symmetry; apply Z.leb_le; lia).
    exists m1p, (ex + n), (ex + n + p).
    split; [reflexivity |]. split; [exact Hdig |].
    split; [lia |]. split; [lia |].
    rewrite Hu.
    split; [| split].
    + nia.
    + nia.
    + intros Hl Hdiv.
      rewrite Z.mul_mod_distr_r in Hdiv by lia.
      assert (Hz : Zpos mx mod 2 ^ n = 0) by nia.
      specialize (Hm1x Hl Hz).
      assert (Hex : Zpos mx = 2 ^ n * m0) by (unfold m0; apply Z.div_exact; lia).
      rewrite Hm1x, Hex. ring.
  - (* the mantissa reached 2^53 *)
    assert (Heq : Zpos m1p = 2 ^ 53) by lia.
    assert (Hdig : Zpos (digits2_pos m1p) = 54).
    { apply digits2_pos_unique. rewrite Heq. simpl. lia. }
    assert (Hshift2 : fexp 53 1024 (Zdigits2 (Zpos m1p) + (ex + n)) - (ex + n) = 1).
    { unfold fexp, emin. cbn [Zdigits2]. rewrite Hdig. lia. }
    unfold shr_fexp. rewrite Hshift2.
    assert (Hm1p : m1p = 9007199254740992%positive).
    { apply Pos2Z.inj. rewrite Heq. reflexivity. }
    subst m1p. cbn [shr iter_pos shr_1 shr_record_of_loc shr_m orb].
    replace (ex + n + 1 <=? 1024 - 53) with true by (symmetry; apply Z.leb_le; lia).
    exists 4503599627370496%positive, (ex + n + 1), (ex + n + p).
    split; [reflexivity |]. split; [reflexivity |].
    split; [lia |]. split; [lia |].
    assert (Hu' : 2 ^ (ex + n + 1 + p) = 2 * (2 ^ n * 2 ^ (ex + p))).
    { rewrite <- Hu. rewrite <- Z.pow_succ_r by lia. f_equal. lia. }
    rewrite Hu, Hu'.
    change (2 ^ 53) with 9007199254740992 in *.
    change (2 ^ 52) with 4503599627370496 in *.
    split; [| split].
    + nia.
    + nia.
    + intros Hl Hdiv.
      rewrite Z.mul_mod_distr_r in Hdiv by lia.
      assert (Hz : Zpos mx mod 2 ^ n = 0) by nia.
      specialize (Hm1x Hl Hz). lia.
Qed.

Lemma pos_iter_xO (m d : positive) :
  Zpos (Pos.iter xO m d) = Zpos m * 2 ^ Zpos d.
Proof.
  induction d as [| d IH] using Pos.peano_ind.
  - simpl. lia.
  - rewrite Pos.iter_succ, Pos2Z.inj_succ, Z.pow_succ_r by lia.
    rewrite Pos2Z.inj_xO, IH. ring.
Qed.

(** Aligning a mantissa to a smaller exponent multiplies it by a power
    of two; aligning to a larger one leaves it alone. *)
Lemma shl_align_spec (mx : positive) (ex ex' : Z) :
  exists mz ez,
    shl_align mx ex ex' = (mz, ez) /\
    ez = Z.min ex ex' /\
    Zpos mz = Zpos mx * 2 ^ (ex - ez).
Proof.
  unfold shl_align. destruct (ex' - ex) as [| d | d] eqn:Hd.
  - exists mx, ex. split; [reflexivity |]. split; [lia |].
    rewrite Z.sub_diag. simpl. lia.
  - exists mx, ex. split; [reflexivity |]. split; [lia |].
    rewrite Z.sub_diag. simpl. lia.
  - exists (Pos.iter xO mx d), ex'. split; [reflexivity |]. split; [lia |].
    rewrite pos_iter_xO. f_equal. f_equal. lia.
Qed.

Lemma pow2_exp_lt (a b : Z) : 0 <= b -> 2 ^ a < 2 ^ b -> a < b.
Proof.
  intros Hb H. destruct (Z_lt_le_dec a b) as [|Hge]; [assumption |].
  assert (2 ^ b <= 2 ^ a) by (apply Z.pow_le_mono_r; lia). lia.
Qed.

Lemma mod_pow2_mul (c u v : Z) : 0 <= u <= v -> (c * 2 ^ v) mod 2 ^ u = 0.
Proof.
  intros H. replace v with ((v - u) + u) by lia.
  rewrite Z.pow_add_r by lia. rewrite Z.mul_assoc. apply Z.mod_mul.
  apply Z.pow_nonzero; lia.
Qed.

(** [binary_round] on any positive mantissa, in the normal range. *)
Lemma binary_round_faithful (sx : bool) (mx : positive) (ex p : Z) :
  -1074 <= ex + Zpos (digits2_pos mx) - 53 ->
  Z.max ex (ex + Zpos (digits2_pos mx) - 53) < 971 ->
  0 <= Z.min ex (ex + Zpos (digits2_pos mx) - 53) + p ->
  exists (m : positive) (e u : Z),
    binary_round 53 1024 sx mx ex = S754_finite sx m e /\
    Zpos (digits2_pos m) = 53 /\
    0 <= e + p /\ 0 <= u /\
    Zpos mx * 2 ^ (ex + p) - 2 ^ u < Zpos m * 2 ^ (e + p)
      <= Zpos mx * 2 ^ (ex + p) + 2 ^ u /\
    2 ^ 52 * 2 ^ u <= Zpos mx * 2 ^ (ex + p) /\
    ((Zpos mx * 2 ^ (ex + p)) mod 2 ^ u = 0 ->
     Zpos m * 2 ^ (e + p) = Zpos mx * 2 ^ (ex + p)).
Proof.
  set (d := Zpos (digits2_pos mx)). intros Hlo Hhi Hp.
  pose proof (digits2_pos_bounds mx) as Hmx. fold d in Hmx.
  unfold binary_round.
  assert (Hfexp : fexp 53 1024 (Zpos (digits2_pos mx) + ex) = Z.max (ex + d - 53) (-1074)).
  { unfold fexp, emin. fold d. lia. }
  rewrite Hfexp.
  destruct (shl_align_spec mx ex (Z.max (ex + d - 53) (-1074)))
    as (mz & ez & -> & Hez & Hmz).
  assert (Hez' : ez = Z.min ex (ex + d - 53)) by lia.
  assert (Hs : 0 <= ex - ez) by lia.
  assert (Hps : 0 < 2 ^ (ex - ez)) by (apply Z.pow_pos_nonneg; lia).
  (* digits of the aligned mantissa *)
  assert (Hdz : Zpos (digits2_pos mz) = d + (ex - ez)).
  { apply digits2_pos_unique. rewrite Hmz.
    replace (d + (ex - ez) - 1) with ((d - 1) + (ex - ez)) by lia.
    assert (0 < d) by (unfold d; lia).
    rewrite !Z.pow_add_r by lia. nia. }
  assert (HX : Zpos mz * 2 ^ (ez + p) = Zpos mx * 2 ^ (ex + p)).
  { rewrite Hmz. rewrite <- Z.mul_assoc, <- Z.pow_add_r by lia.
    f_equal. f_equal. lia. }
  destruct (binary_round_aux_faithful sx mz ez p loc_Exact)
    as (m & e & u & Hres & Hdig & He & Hu & Hbnd & Hmag & Hexact);
    [lia | lia | lia |].
  exists m, e, u. rewrite HX in *.
  split; [exact Hres |]. split; [exact Hdig |].
  split; [lia |]. split; [lia |].
  split; [exact Hbnd |]. split; [exact Hmag |].
  intros Hdiv. apply Hexact; [reflexivity | exact Hdiv].
Qed.

(** Integers below [2 ^ 53] convert exactly. *)
Lemma of_int_exact (k : positive) (p : Z) :
  Zpos k < 2 ^ 53 -> 53 <= p ->
  exists (m : positive) (e : Z),
    Float64.of_int (Zpos k) = S754_finite false m e /\
    Zpos (digits2_pos m) = 53 /\
    0 <= e + p /\
    Zpos m * 2 ^ (e + p) = Zpos k * 2 ^ p.
Proof.
  intros Hk Hp.
  pose proof (digits2_pos_bounds k) as Hd.
  assert (Hd53 : Zpos (digits2_pos k) <= 53).
  { assert (Zpos (digits2_pos k) - 1 < 53); [| lia].
    apply pow2_exp_lt; lia. }
  unfold Float64.of_int, binary_normalize, Float64.prec, Float64.emax.
  destruct (binary_round_faithful false k 0 p)
    as (m & e & u & Hres & Hdig & He & Hu & Hbnd & Hmag & Hexact);
    [lia | lia | lia |].
  exists m, e. split; [exact Hres |]. split; [exact Hdig |].
  split; [exact He |].
  rewrite Z.add_0_l in *. apply Hexact.
  apply mod_pow2_mul. split; [exact Hu |].
  assert (Hlt : 2 ^ (52 + u) < 2 ^ (53 + p)).
  { rewrite !Z.pow_add_r by lia.
    assert (0 < 2 ^ p) by (apply Z.pow_pos_nonneg; lia). nia. }
  apply pow2_exp_lt in Hlt; lia.
Qed.

Lemma trunc_of_int (n : Z) :
  0 <= n < 2 ^ 53 -> Float64.trunc (Float64.of_int n) = n.
Proof.
  intros Hn. destruct n as [| k | k]; [reflexivity | | lia].
  destruct (of_int_exact k 53) as (m & e & -> & Hdig & He & Hval); [lia | lia |].
  pose proof (digits2_pos_bounds m) as Hm. rewrite Hdig in Hm.
  simpl (53 - 1) in Hm.
  (* the exponent is not positive *)
  assert (Hle : e <= 0).
  { assert (Hlt : 2 ^ (e + 53 + 52) < 2 ^ (53 + 53)).
    { replace (e + 53 + 52) with ((e + 53) + 52) by lia.
      rewrite (Z.pow_add_r 2 (e + 53) 52) by lia.
      rewrite (Z.pow_add_r 2 53 53) by lia.
      assert (0 < 2 ^ (e + 53)) by (apply Z.pow_pos_nonneg; lia). nia. }
    apply pow2_exp_lt in Hlt; lia. }
  assert (Hsplit : 2 ^ 53 = 2 ^ (e + 53) * 2 ^ (- e)).
  { rewrite <- Z.pow_add_r by lia. f_equal. lia. }
  assert (Hpe : 0 < 2 ^ (e + 53)) by (apply Z.pow_pos_nonneg; lia).
  assert (Hpn : 0 < 2 ^ (- e)) by (apply Z.pow_pos_nonneg; lia).
  assert (Hm' : Zpos m = Zpos k * 2 ^ (- e)).
  { rewrite Hsplit in Hval. nia. }
  unfold Float64.trunc, Float64.smant, cond_Zopp.
  destruct (0 <=? e) eqn:E.
  - apply Z.leb_le in E. assert (e = 0) by lia. subst e. simpl in *. lia.
  - rewrite Hm'. apply Z.quot_mul. lia.
Qed.

Lemma div_eucl_div_mod (a b : Z) : Z.div_eucl a b = (a / b, a mod b).
Proof. unfold Z.div, Z.modulo. destruct (Z.div_eucl a b). reflexivity. Qed.

(** Division of a 53-digit positive float by [100.0]. *)
Lemma div_hundred_faithful (ma : positive) (ea p : Z) :
  Zpos (digits2_pos ma) = 53 ->
  -1000 <= ea <= 900 ->
  0 <= ea - 7 + p ->
  exists (m : positive) (e u : Z),
    Float64.div (S754_finite false ma ea) Float64.hundred = S754_finite false m e /\
    Zpos (digits2_pos m) = 53 /\
    0 <= e + p /\ 0 <= u /\
    Zpos ma * 2 ^ (ea + p) - 200 * 2 ^ u < 100 * (Zpos m * 2 ^ (e + p))
      <= Zpos ma * 2 ^ (ea + p) + 100 * 2 ^ u /\
    100 * 2 ^ 52 * 2 ^ u <= Zpos ma * 2 ^ (ea + p) /\
    ((Zpos ma * 2 ^ 7) mod 100 = 0 ->
     (Zpos ma * 2 ^ (ea + p) / 100) mod 2 ^ u = 0 ->
     100 * (Zpos m * 2 ^ (e + p)) = Zpos ma * 2 ^ (ea + p)).
Proof.
  intros Hdig Hea Hp.
  pose proof (digits2_pos_bounds ma) as Hma. rewrite Hdig in Hma.
  change (2 ^ (53 - 1)) with 4503599627370496 in Hma.
  change (2 ^ 53) with 9007199254740992 in Hma.
  change Float64.hundred with (S754_finite false 7036874417766400 (-46)).
  unfold Float64.div, Float64.prec, Float64.emax. cbn [SFdiv xorb].
  unfold SFdiv_core_binary. cbn [Zdigits2]. rewrite Hdig.
  change (Zpos (digits2_pos 7036874417766400)) with 53.
  assert (He' : Z.min (fexp 53 1024 (53 + ea - (53 + -46))) (ea - -46) = ea - 7).
  { unfold fexp, emin. lia. }
  rewrite He'.
  replace (ea - -46 - (ea - 7)) with 53 by lia.
  rewrite Z.shiftl_mul_pow2 by lia.
  change (2 ^ 53) with 9007199254740992.
  rewrite div_eucl_div_mod.
  set (q := Zpos ma * 9007199254740992 / 7036874417766400).
  set (r := (Zpos ma * 9007199254740992) mod 7036874417766400).
  assert (Hqr : Zpos ma * 9007199254740992 = 7036874417766400 * q + r /\
                0 <= r < 7036874417766400).
  { split.
    - unfold q, r. apply Z.div_mod. lia.
    - unfold r. apply Z.mod_pos_bound. lia. }
  destruct Hqr as [Hqr Hr].
  assert (Hq : 4503599627370496 <= q < 18014398509481984) by lia.
  destruct q as [| qp | qp] eqn:Eq; [lia | | lia].
  assert (Hdq : Zpos (digits2_pos qp) = 53 \/ Zpos (digits2_pos qp) = 54).
  { destruct (Z_lt_le_dec (Zpos qp) 9007199254740992).
    - left. apply digits2_pos_unique. simpl. lia.
    - right. apply digits2_pos_unique. simpl. lia. }
  destruct (binary_round_aux_faithful false qp (ea - 7) p
              (new_location 7036874417766400 r))
    as (m & e & u & Hres & Hdm & He & Hu & Hbnd & Hmag & Hexact);
    [lia | lia | lia |].
  exists m, e, u.
  split; [exact Hres |]. split; [exact Hdm |].
  split; [lia |]. split; [lia |].
  set (c := 2 ^ (ea - 7 + p)) in *.
  assert (Hc : 0 < c) by (apply Z.pow_pos_nonneg; lia).
  assert (Hcu : c <= 2 ^ u) by (apply Z.pow_le_mono_r; lia).
  assert (HVa : 2 ^ (ea + p) = 128 * c).
  { unfold c. replace (ea + p) with (7 + (ea - 7 + p)) by lia.
    rewrite Z.pow_add_r by lia. reflexivity. }
  rewrite HVa.
  change (2 ^ 52) with 4503599627370496 in *.
  assert (H100 : 100 * Zpos qp <= 128 * Zpos ma < 100 * Zpos qp + 100) by lia.
  split; [| split].
  - nia.
  - nia.
  - intros Hdiv100 Hdivu.
    change (2 ^ 7) with 128 in Hdiv100.
    assert (Hex : Zpos ma * 128 = 100 * (Zpos ma * 128 / 100)).
    { apply Z.div_exact; lia. }
    assert (Hq100 : 128 * Zpos ma = 100 * Zpos qp).
    { assert (Zpos ma * 128 / 100 = Zpos qp); [| lia].
      symmetry. apply Z.div_unique with (128 * Zpos ma - 100 * Zpos qp); lia. }
    assert (Hr0 : r = 0) by lia.
    assert (HX : Zpos ma * (128 * c) / 100 = Zpos qp * c).
    { replace (Zpos ma * (128 * c)) with ((Zpos qp * c) * 100) by nia.
      apply Z.div_mul. lia. }
    rewrite HX in Hdivu.
    rewrite Hr0 in Hexact. specialize (Hexact eq_refl Hdivu). nia.
Qed.

(** Adding [0.5] to a 53-digit positive float. *)
Lemma add_half_faithful (mb : positive) (eb p : Z) :
  Zpos (digits2_pos mb) = 53 ->
  -1000 <= eb <= 900 ->
  53 <= p -> 0 <= eb + p ->
  exists (m : positive) (e u : Z),
    Float64.add (S754_finite false mb eb) Float64.half = S754_finite false m e /\
    Zpos (digits2_pos m) = 53 /\
    0 <= e + p /\ 0 <= u /\
    Zpos mb * 2 ^ (eb + p) + 2 ^ (p - 1) - 2 ^ u < Zpos m * 2 ^ (e + p)
      <= Zpos mb * 2 ^ (eb + p) + 2 ^ (p - 1) + 2 ^ u /\
    2 ^ 52 * 2 ^ u <= Zpos mb * 2 ^ (eb + p) + 2 ^ (p - 1) /\
    ((Zpos mb * 2 ^ (eb + p) + 2 ^ (p - 1)) mod 2 ^ u = 0 ->
     Zpos m * 2 ^ (e + p) = Zpos mb * 2 ^ (eb + p) + 2 ^ (p - 1)).
Proof.
  intros Hdig Heb Hp Hebp.
  pose proof (digits2_pos_bounds mb) as Hmb. rewrite Hdig in Hmb.
  change (2 ^ (53 - 1)) with 4503599627370496 in Hmb.
  change (2 ^ 53) with 9007199254740992 in Hmb.
  unfold Float64.add, Float64.half, Float64.prec, Float64.emax.
  cbn [SFadd cond_Zopp].
  set (ez := Z.min eb (-53)).
  destruct (shl_align_spec mb eb ez) as (m1 & z1 & Hal1 & Hz1 & Hm1).
  destruct (shl_align_spec 4503599627370496 (-53) ez) as (m2 & z2 & Hal2 & Hz2 & Hm2).
  rewrite Hal1, Hal2.
  cbn [fst]. rewrite <- Pos2Z.inj_add. cbn [binary_normalize].
  assert (Hz1' : z1 = ez) by (unfold ez in *; lia).
  assert (Hz2' : z2 = ez) by (unfold ez in *; lia).
  rewrite Hz1' in Hm1. rewrite Hz2' in Hm2. clear Hal1 Hal2 Hz1 Hz2 Hz1' Hz2' z1 z2.
  assert (Ha : 0 < 2 ^ (eb - ez)) by (apply Z.pow_pos_nonneg; unfold ez; lia).
  assert (Hb : 0 < 2 ^ (-53 - ez)) by (apply Z.pow_pos_nonneg; unfold ez; lia).
  set (M := (m1 + m2)%positive).
  assert (HM : Zpos M = Zpos mb * 2 ^ (eb - ez) + 4503599627370496 * 2 ^ (-53 - ez)).
  { unfold M. rewrite Pos2Z.inj_add. lia. }
  pose proof (digits2_pos_bounds M) as HdM.
  (* the sum has at least 53 digits, and not many more *)
  assert (Hlo : 53 <= Zpos (digits2_pos M)).
  { assert (Hlt : 2 ^ 52 < 2 ^ Zpos (digits2_pos M)).
    { change (2 ^ 52) with 4503599627370496. nia. }
    apply pow2_exp_lt in Hlt; lia. }
  set (top := Z.max eb (-53)).
  assert (Hhi : Zpos (digits2_pos M) + ez <= top + 54).
  { assert (Hlt : 2 ^ (Zpos (digits2_pos M) - 1) < 2 ^ (top + 54 - ez)).
    { assert (H1 : 2 ^ (eb - ez) <= 2 ^ (top - ez))
        by (apply Z.pow_le_mono_r; unfold top, ez; lia).
      assert (H2 : 2 ^ (-53 - ez) <= 2 ^ (top - ez))
        by (apply Z.pow_le_mono_r; unfold top, ez; lia).
      assert (H3 : 2 ^ (top + 54 - ez) = 18014398509481984 * 2 ^ (top - ez)).
      { replace (top + 54 - ez) with (54 + (top - ez)) by lia.
        rewrite Z.pow_add_r by (unfold top, ez; lia). reflexivity. }
      rewrite H3.
      assert (0 < 2 ^ (top - ez)) by (apply Z.pow_pos_nonneg; unfold top, ez; lia).
      nia. }
    apply pow2_exp_lt in Hlt; unfold top, ez in *; lia. }
  destruct (binary_round_faithful false M ez p)
    as (m & e & u & Hres & Hdm & He & Hu & Hbnd & Hmag & Hexact);
    [unfold ez in *; lia | unfold top, ez in *; lia | unfold ez in *; lia |].
  assert (HX : Zpos M * 2 ^ (ez + p) = Zpos mb * 2 ^ (eb + p) + 2 ^ (p - 1)).
  { rewrite HM, Z.mul_add_distr_r.
    rewrite <- !Z.mul_assoc, <- !Z.pow_add_r by (unfold ez; lia).
    replace (eb - ez + (ez + p)) with (eb + p) by lia.
    replace (-53 - ez + (ez + p)) with (p - 53) by lia.
    f_equal.
    replace (p - 1) with (52 + (p - 53)) by lia.
    rewrite Z.pow_add_r by lia. reflexivity. }
  rewrite HX in *.
  exists m, e, u. repeat split; try assumption; try lia.
Qed.

(** The integer a positive float floors to, read off its scaled value. *)
Lemma trunc_Floor_between (m : positive) (e n : Z) :
  -60 <= e -> 0 <= n < 2 ^ 53 ->
  n * 2 ^ 60 <= Zpos m * 2 ^ (e + 60) < (n + 1) * 2 ^ 60 ->
  Float64.trunc (Float64.Floor (S754_finite false m e)) = n.
Proof.
  intros He Hn Hv.
  unfold Float64.Floor, Float64.smant, cond_Zopp.
  destruct (0 <=? e) eqn:E.
  - apply Z.leb_le in E.
    unfold Float64.trunc, Float64.smant, cond_Zopp.
    replace (0 <=? e) with true by (symmetry; apply Z.leb_le; exact E).
    assert (Hsplit : 2 ^ (e + 60) = 2 ^ e * 2 ^ 60) by (apply Z.pow_add_r; lia).
    rewrite Hsplit in Hv.
    change (2 ^ 60) with 1152921504606846976 in Hv. nia.
  - apply Z.leb_gt in E.
    assert (Hsplit : 2 ^ 60 = 2 ^ (e + 60) * 2 ^ (- e)).
    { rewrite <- Z.pow_add_r by lia. f_equal. lia. }
    assert (Hc : 0 < 2 ^ (e + 60)) by (apply Z.pow_pos_nonneg; lia).
    assert (Hs : 0 < 2 ^ (- e)) by (apply Z.pow_pos_nonneg; lia).
    rewrite Hsplit in Hv.
    assert (Hq : Zpos m / 2 ^ (- e) = n).
    { symmetry. apply Z.div_unique with (Zpos m - 2 ^ (- e) * n); nia. }
    rewrite Hq. apply trunc_of_int. exact Hn.
Qed.

(** On every inter-character timeout whose rounded quotient fits a
    DWORD, the binary64 computation [round(float64(t) / 100.0)] is the
    integer round-half-up of [t / 100]. *)
Lemma timeoutConstant_round_half_up (o : OpenOptions) :
  0 <= InterCharacterTimeout o < 429496729550 ->
  timeoutConstant o = (InterCharacterTimeout o + 50) / 100.
Proof.
  destruct o as [k mrs]. cbn [InterCharacterTimeout]. intros Hk.
  unfold timeoutConstant. cbn [InterCharacterTimeout].
  destruct k as [| kp | kp]; [reflexivity | | lia].
  set (N := (Zpos kp + 50) / 100).
  assert (HN : 100 * N <= Zpos kp + 50 <= 100 * N + 99).
  { unfold N. pose proof (Z.div_mod (Zpos kp + 50) 100 ltac:(lia)).
    pose proof (Z.mod_pos_bound (Zpos kp + 50) 100 ltac:(lia)). lia. }
  assert (HN32 : 0 <= N < 2 ^ 32) by (change (2 ^ 32) with 4294967296; lia).
  (* float64(t) *)
  destruct (of_int_exact kp 60) as (ma & ea & Ha & Hda & Hea & Hva);
    [change (2 ^ 53) with 9007199254740992; lia | lia |].
  pose proof (digits2_pos_bounds ma) as Hma. rewrite Hda in Hma.
  change (2 ^ (53 - 1)) with 4503599627370496 in Hma.
  change (2 ^ 53) with 9007199254740992 in Hma.
  assert (Hca : 0 < 2 ^ (ea + 60)) by (apply Z.pow_pos_nonneg; lia).
  assert (Hea_hi : ea <= -14).
  { assert (Hlt : 2 ^ (ea + 60 + 52) < 2 ^ 99).
    { rewrite Z.pow_add_r by lia.
      change (2 ^ 52) with 4503599627370496.
      change (2 ^ 99) with (549755813888 * 2 ^ 60).
      change (2 ^ 60) with 1152921504606846976 in *. nia. }
    apply pow2_exp_lt in Hlt; lia. }
  assert (Hea_lo : -52 <= ea).
  { assert (Hlt : 2 ^ 7 < 2 ^ (ea + 60)).
    { change (2 ^ 7) with 128.
      change (2 ^ 60) with 1152921504606846976 in *. nia. }
    apply pow2_exp_lt in Hlt; lia. }
  rewrite Ha.
  (* ... / 100.0 *)
  destruct (div_hundred_faithful ma ea 60)
    as (mb & eb & ub & Hb & Hdb & Heb & Hub & Hbb & Hmagb & Hexb);
    [exact Hda | lia | lia |].
  rewrite Hva in Hbb, Hmagb, Hexb.
  pose proof (digits2_pos_bounds mb) as Hmb. rewrite Hdb in Hmb.
  change (2 ^ (53 - 1)) with 4503599627370496 in Hmb.
  change (2 ^ 53) with 9007199254740992 in Hmb.
  assert (Hcb : 0 < 2 ^ (eb + 60)) by (apply Z.pow_pos_nonneg; lia).
  assert (HUb : 0 < 2 ^ ub) by (apply Z.pow_pos_nonneg; lia).
  change (2 ^ 52) with 4503599627370496 in Hmagb.
  assert (Hub_hi : ub <= 46).
  { assert (Hlt : 2 ^ ub < 2 ^ 47).
    { change (2 ^ 47) with 140737488355328.
      change (2 ^ 60) with 1152921504606846976 in *. nia. }
    apply pow2_exp_lt in Hlt; lia. }
  assert (Heb_hi : eb <= -13).
  { assert (Hlt : 2 ^ (eb + 60) < 2 ^ 48).
    { change (2 ^ 48) with 281474976710656.
      change (2 ^ 60) with 1152921504606846976 in *. nia. }
    apply pow2_exp_lt in Hlt; lia. }
  rewrite Hb. unfold round.
  (* ... + 0.5 *)
  destruct (add_half_faithful mb eb 60)
    as (mc & ec & uc & Hc & Hdc & Hec & Huc & Hbc & Hmagc & Hexc);
    [exact Hdb | lia | lia | lia |].
  change (2 ^ (60 - 1)) with 576460752303423488 in *.
  change (2 ^ 52) with 4503599627370496 in Hmagc.
  assert (HUc : 0 < 2 ^ uc) by (apply Z.pow_pos_nonneg; lia).
  rewrite Hc.
  unfold Float64.to_uint32.
  change (2 ^ 60) with 1152921504606846976 in *.
  set (Rb := Zpos mb * 2 ^ (eb + 60)) in *.
  set (Rc := Zpos mc * 2 ^ (ec + 60)) in *.
  assert (Huc_hi : uc <= 46).
  { assert (Hlt : 2 ^ uc < 2 ^ 47).
    { change (2 ^ 47) with 140737488355328. nia. }
    apply pow2_exp_lt in Hlt; lia. }
  assert (Hbetween : N * 1152921504606846976 <= Rc < (N + 1) * 1152921504606846976).
  { assert (HUb46 : 2 ^ ub <= 2 ^ 46) by (apply Z.pow_le_mono_r; lia).
    assert (HUc46 : 2 ^ uc <= 2 ^ 46) by (apply Z.pow_le_mono_r; lia).
    change (2 ^ 46) with 70368744177664 in *.
    split; [| lia].
    destruct (Z.eq_dec (Zpos kp + 50) (100 * N)) as [Hexact | Hinexact]; [| lia].
    (* t / 100 ends in one half: every step is exact *)
    assert (Hk50 : Zpos kp = 50 * (2 * N - 1)) by lia.
    assert (HRb : 100 * Rb = Zpos kp * 1152921504606846976).
    { apply Hexb.
      - assert (Hsplit : 1152921504606846976 = 2 ^ (ea + 60) * 2 ^ (- ea)).
        { change 1152921504606846976 with (2 ^ 60).
          rewrite <- Z.pow_add_r by lia. f_equal. lia. }
        assert (Hm : Zpos ma = Zpos kp * 2 ^ (- ea)).
        { rewrite Hsplit in Hva. nia. }
        rewrite Hm, Hk50. change (2 ^ 7) with 128.
        replace (50 * (2 * N - 1) * 2 ^ (- ea) * 128)
          with ((2 * N - 1) * 2 ^ (- ea) * 64 * 100) by ring.
        apply Z.mod_mul. lia.
      - rewrite Hk50.
        replace (50 * (2 * N - 1) * 1152921504606846976)
          with ((2 * N - 1) * 2 ^ 59 * 100)
          by (change (2 ^ 59) with 576460752303423488; ring).
        rewrite Z.div_mul by lia. apply mod_pow2_mul. lia. }
    assert (HXc : Rb + 576460752303423488 = N * 1152921504606846976) by lia.
    rewrite HXc in Hexc. rewrite Hexc; [lia |].
    change 1152921504606846976 with (2 ^ 60). apply mod_pow2_mul. lia. }
  rewrite (trunc_Floor_between mc ec N).
  - apply uint32_small. exact HN32.
  - lia.
  - change (2 ^ 53) with 9007199254740992. change (2 ^ 32) with 4294967296 in HN32. lia.
  - change (2 ^ 60) with 1152921504606846976. exact Hbetween.
Qed.

(** ** The legacy translator: claims *)

(** C1, as stated, at the input (1, 0).  The inter-character timeout is
    positive and the minimum read size is zero, yet 1 / 100 rounds to 0,
    the guard [timeoutConstant > 0] of the first arm fails, and the
    translator falls through to its last arm: the read total constant
    is [MAXDWORD - 1], not the rounded quotient 0. *)
Lemma ctoFromOpenOptions_1_0_falls_through :
  let o := mkOpenOptions 1 0 in
  wf_options o /\
  0 < InterCharacterTimeout o /\ MinimumReadSize o = 0 /\
  timeoutConstant o = 0 /\
  legacyBranch (timeoutConstant o) (readIntervalTimeout o) = UseDefaults /\
  ctoFromOpenOptions o = mkCTO MAXDWORD MAXDWORD (MAXDWORD - 1) 0 0 /\
  ReadTotalTimeoutConstant (ctoFromOpenOptions o) <> timeoutConstant o.
Proof.
  cbv zeta. unfold wf_options, GoInt.is_uint. cbn [InterCharacterTimeout MinimumReadSize].
  assert (Htc : timeoutConstant (mkOpenOptions 1 0) = 0) by (vm_compute; reflexivity).
  assert (Hri : readIntervalTimeout (mkOpenOptions 1 0) = 0) by reflexivity.
  assert (Hb : legacyBranch (timeoutConstant (mkOpenOptions 1 0))
                            (readIntervalTimeout (mkOpenOptions 1 0)) = UseDefaults).
  { rewrite Htc, Hri. reflexivity. }
  split; [lia |]. split; [lia |]. split; [reflexivity |].
  split; [exact Htc |]. split; [exact Hb |].
  split.
  - apply cto_UseDefaults. exact Hb.
  - rewrite (cto_UseDefaults _ Hb), Htc. discriminate.
Qed.

(** C1 (amended).  For every inter-character timeout from 50 ms up to
    the last one whose rounded quotient fits a DWORD, and every minimum
    read size that is zero as a [uint32], the translator takes its first
    arm and returns [MAXDWORD], [MAXDWORD] and the round-half-up of
    [InterCharacterTimeout / 100], which the binary64 computation
    delivers exactly. *)
Theorem ctoFromOpenOptions_non_blocking (o : OpenOptions) :
  50 <= InterCharacterTimeout o < 429496729550 ->
  GoInt.uint32 (MinimumReadSize o) = 0 ->
  legacyBranch (timeoutConstant o) (readIntervalTimeout o) = NonBlocking /\
  timeoutConstant o = (InterCharacterTimeout o + 50) / 100 /\
  ctoFromOpenOptions o =
    mkCTO MAXDWORD MAXDWORD ((InterCharacterTimeout o + 50) / 100) 0 0.
Proof.
  intros Hk Hm.
  assert (Htc : timeoutConstant o = (InterCharacterTimeout o + 50) / 100)
    by (apply timeoutConstant_round_half_up; lia).
  assert (Hpos : 0 < (InterCharacterTimeout o + 50) / 100)
    by (apply Z.div_str_pos; lia).
  assert (Hb : legacyBranch (timeoutConstant o) (readIntervalTimeout o) = NonBlocking).
  { apply legacyBranch_NonBlocking. unfold readIntervalTimeout. lia. }
  split; [exact Hb |]. split; [exact Htc |].
  rewrite (cto_NonBlocking o Hb), Htc. reflexivity.
Qed.

(** The inputs (100, 0) yield the constant 1. *)
Lemma ctoFromOpenOptions_100_0 :
  50 <= 100 < 429496729550 /\ GoInt.uint32 0 = 0 /\
  ctoFromOpenOptions (mkOpenOptions 100 0) = mkCTO MAXDWORD MAXDWORD 1 0 0.
Proof.
  split; [lia |]. split; [reflexivity |].
  apply (ctoFromOpenOptions_non_blocking (mkOpenOptions 100 0)).
  - cbn [InterCharacterTimeout]. lia.
  - reflexivity.
Defined.

(** C7.  The inputs (0, 0) yield the fallback; the last arm is the one
    taken exactly when neither guard before it holds, that is, when both
    locals are zero; it then returns the fallback whatever the inputs
    were.  In terms of the inputs: when the inter-character timeout is
    below 50 ms and the minimum read size is zero as a [uint32]. *)
Theorem ctoFromOpenOptions_fallback (o : OpenOptions) :
  ctoFromOpenOptions (mkOpenOptions 0 0) =
    mkCTO MAXDWORD MAXDWORD (MAXDWORD - 1) 0 0 /\
  (legacyBranch (timeoutConstant o) (readIntervalTimeout o) = UseDefaults <->
   ~ (0 < timeoutConstant o /\ readIntervalTimeout o = 0) /\
   ~ 0 < readIntervalTimeout o) /\
  (legacyBranch (timeoutConstant o) (readIntervalTimeout o) = UseDefaults <->
   timeoutConstant o = 0 /\ readIntervalTimeout o = 0) /\
  (legacyBranch (timeoutConstant o) (readIntervalTimeout o) = UseDefaults ->
   ctoFromOpenOptions o = mkCTO MAXDWORD MAXDWORD (MAXDWORD - 1) 0 0) /\
  (0 <= InterCharacterTimeout o < 429496729550 ->
   (legacyBranch (timeoutConstant o) (readIntervalTimeout o) = UseDefaults <->
    InterCharacterTimeout o < 50 /\ GoInt.uint32 (MinimumReadSize o) = 0)).
Proof.
  pose proof (timeoutConstant_range o) as Htc.
  pose proof (readIntervalTimeout_range o) as Hri.
  split; [reflexivity |].
  split; [apply legacyBranch_UseDefaults |].
  split; [rewrite legacyBranch_UseDefaults; lia |].
  split; [apply cto_UseDefaults |].
  intros Hk. rewrite legacyBranch_UseDefaults.
  rewrite (timeoutConstant_round_half_up o Hk) in *.
  unfold readIntervalTimeout in *.
  assert (Hq : 0 < (InterCharacterTimeout o + 50) / 100 <-> 50 <= InterCharacterTimeout o).
  { split; intros H.
    - destruct (Z_lt_le_dec (InterCharacterTimeout o) 50) as [Hlt |]; [| assumption].
      rewrite Z.div_small in H by lia. lia.
    - apply Z.div_str_pos. lia. }
  lia.
Qed.

(** An inter-character timeout of 49 ms with no minimum read size: the
    fallback. *)
Lemma ctoFromOpenOptions_49_0 :
  0 <= 49 < 429496729550 /\
  (49 < 50 /\ GoInt.uint32 0 = 0) /\
  ctoFromOpenOptions (mkOpenOptions 49 0) =
    mkCTO MAXDWORD MAXDWORD (MAXDWORD - 1) 0 0.
Proof.
  assert (Hk : 0 <= 49 < 429496729550) by lia.
  assert (Hin : 49 < 50 /\ GoInt.uint32 0 = 0) by (split; [lia | reflexivity]).
  split; [exact Hk |]. split; [exact Hin |].
  destruct (ctoFromOpenOptions_fallback (mkOpenOptions 49 0))
    as (_ & _ & _ & Hcto & Hiff).
  apply Hcto. apply (Hiff Hk). exact Hin.
Defined.

(** C8, as stated, at the input (0, 2^32).  The first arm does not
    apply and the minimum read size is positive, yet its low 32 bits are
    zero: [readIntervalTimeout] is 0 and the fallback is returned. *)
Lemma ctoFromOpenOptions_0_4294967296_falls_through :
  let o := mkOpenOptions 0 4294967296 in
  wf_options o /\
  ~ (0 < InterCharacterTimeout o /\ MinimumReadSize o = 0) /\
  0 < MinimumReadSize o /\
  legacyBranch (timeoutConstant o) (readIntervalTimeout o) = UseDefaults /\
  ctoFromOpenOptions o = mkCTO MAXDWORD MAXDWORD (MAXDWORD - 1) 0 0 /\
  ctoFromOpenOptions o <> mkCTO (MinimumReadSize o) 1 1 0 0.
Proof.
  cbv zeta. unfold wf_options, GoInt.is_uint.
  cbn [InterCharacterTimeout MinimumReadSize].
  split; [lia |]. split; [lia |]. split; [lia |].
  split; [reflexivity |]. split; [reflexivity | discriminate].
Qed.

(** C8 (amended).  Whenever the minimum read size is not zero as a
    [uint32] (in particular whenever it lies strictly between 0 and
    2^32) the first arm does not apply and the second returns the
    [uint32] minimum read size, 1 and 1. *)
Theorem ctoFromOpenOptions_block_for_input (o : OpenOptions) :
  GoInt.uint32 (MinimumReadSize o) <> 0 ->
  legacyBranch (timeoutConstant o) (readIntervalTimeout o) = BlockForInput /\
  ctoFromOpenOptions o = mkCTO (GoInt.uint32 (MinimumReadSize o)) 1 1 0 0 /\
  (0 < MinimumReadSize o < 2 ^ 32 ->
   ctoFromOpenOptions o = mkCTO (MinimumReadSize o) 1 1 0 0).
Proof.
  intros Hnz.
  pose proof (readIntervalTimeout_range o) as Hri.
  assert (Hb : legacyBranch (timeoutConstant o) (readIntervalTimeout o) = BlockForInput).
  { apply legacyBranch_BlockForInput. unfold readIntervalTimeout in *. lia. }
  split; [exact Hb |].
  rewrite (cto_BlockForInput o Hb). unfold readIntervalTimeout.
  split; [reflexivity |].
  intros Hsmall. rewrite uint32_small by lia. reflexivity.
Qed.

(** The inputs (0, 4) yield (4, 1, 1). *)
Lemma ctoFromOpenOptions_0_4 :
  GoInt.uint32 4 <> 0 /\
  ctoFromOpenOptions (mkOpenOptions 0 4) = mkCTO 4 1 1 0 0.
Proof.
  split; [discriminate |].
  destruct (ctoFromOpenOptions_block_for_input (mkOpenOptions 0 4))
    as (_ & H & _); [discriminate | exact H].
Defined.

(** ** The Windows methods, run on a world *)

Section WindowsRuns.

Context {S : Type}.
Variable K : HandleProvider S.

Lemma nilOrInvalid_true (p : option Windows.serialPort) :
  Windows.nilOrInvalid p = true <->
  p = None \/
  exists sp, p = Some sp /\ (Windows.fd sp = 0 \/ Windows.fd sp = InvalidHandle).
Proof.
  destruct p as [sp |]; cbn [Windows.nilOrInvalid].
  - rewrite orb_true_iff, !Z.eqb_eq. split.
    + intros H. right. exists sp. split; [reflexivity | exact H].
    + intros [H | (sp' & H & Hfd)]; [discriminate |].
      injection H as <-. exact Hfd.
  - split; [intros _; left; reflexivity | reflexivity].
Qed.

(** On a nil port or a zero / invalid handle the four guarded methods
    answer locally and leave the world as it was. *)
Lemma SetTimeouts_guarded (p : option Windows.serialPort) (t : Timeouts)
    (w : World S) :
  Windows.nilOrInvalid p = true ->
  Windows.SetTimeouts K p t w = (Returns (Some ErrInvalidOrNilPort), w).
Proof. intros H. unfold Windows.SetTimeouts. rewrite H. reflexivity. Qed.

Lemma Read_guarded (p : option Windows.serialPort) (buf : list Byte.byte)
    (w : World S) :
  Windows.nilOrInvalid p = true ->
  Windows.Read K p buf w = (Returns (buf, 0, Some ErrInvalidOrNilPort), w).
Proof. intros H. unfold Windows.Read. rewrite H. reflexivity. Qed.

Lemma Write_guarded (p : option Windows.serialPort) (buf : list Byte.byte)
    (w : World S) :
  Windows.nilOrInvalid p = true ->
  Windows.Write K p buf w = (Returns (0, Some ErrInvalidOrNilPort), w).
Proof. intros H. unfold Windows.Write. rewrite H. reflexivity. Qed.

Lemma Close_guarded (p : option Windows.serialPort) (w : World S) :
  Windows.nilOrInvalid p = true ->
  Windows.Close K p w = (Returns (Some ErrInvalidOrNilPort), w).
Proof. intros H. unfold Windows.Close. rewrite H. reflexivity. Qed.

(** On a usable port each of them makes exactly one provider call and
    returns what the provider reported. *)
Lemma SetTimeouts_usable (sp : Windows.serialPort) (t : Timeouts) (w : World S) :
  Windows.nilOrInvalid (Some sp) = false ->
  let cto := Windows.SetTimeouts_cto t in
  let reply := osSetCommTimeouts K (Windows.fd sp) cto (os w) in
  Windows.SetTimeouts K (Some sp) t w =
    (Returns (Windows.syscallResult (fst reply)),
     mkWorld (snd reply) (trace w ++ [SysSetCommTimeouts (Windows.fd sp) cto])).
Proof.
  intros H. cbv zeta.
  unfold Windows.SetTimeouts. rewrite H.
  unfold Windows.setCommTimeouts, Windows.load_fd, bind, perform, ret.
  destruct (osSetCommTimeouts K (Windows.fd sp) (Windows.SetTimeouts_cto t) (os w))
    as [reply s']. reflexivity.
Qed.

Lemma Read_usable (sp : Windows.serialPort) (buf : list Byte.byte) (w : World S) :
  Windows.nilOrInvalid (Some sp) = false ->
  let reply := osReadFile K (Windows.fd sp) buf (os w) in
  Windows.Read K (Some sp) buf w =
    (Returns (fst (fst (fst reply)), snd (fst (fst reply)),
              errno_error (snd (fst reply))),
     mkWorld (snd reply) (trace w ++ [SysReadFile (Windows.fd sp) buf])).
Proof.
  intros H. cbv zeta.
  unfold Windows.Read. rewrite H.
  unfold Windows.load_fd, bind, perform, ret.
  destruct (osReadFile K (Windows.fd sp) buf (os w)) as [[[buf' n] e] s'].
  reflexivity.
Qed.

Lemma Write_usable (sp : Windows.serialPort) (buf : list Byte.byte) (w : World S) :
  Windows.nilOrInvalid (Some sp) = false ->
  let reply := osWriteFile K (Windows.fd sp) buf (os w) in
  Windows.Write K (Some sp) buf w =
    (Returns (fst (fst reply), errno_error (snd (fst reply))),
     mkWorld (snd reply) (trace w ++ [SysWriteFile (Windows.fd sp) buf])).
Proof.
  intros H. cbv zeta.
  unfold Windows.Write. rewrite H.
  unfold Windows.load_fd, bind, perform, ret.
  destruct (osWriteFile K (Windows.fd sp) buf (os w)) as [[n e] s'].
  reflexivity.
Qed.

Lemma Close_usable (sp : Windows.serialPort) (w : World S) :
  Windows.nilOrInvalid (Some sp) = false ->
  let reply := osCloseHandle K (Windows.fd sp) (os w) in
  Windows.Close K (Some sp) w =
    (Returns (errno_error (fst reply)),
     mkWorld (snd reply) (trace w ++ [SysCloseHandle (Windows.fd sp)])).
Proof.
  intros H. cbv zeta.
  unfold Windows.Close. rewrite H.
  unfold Windows.load_fd, bind, perform, ret.
  destruct (osCloseHandle K (Windows.fd sp) (os w)) as [e s'].
  reflexivity.
Qed.

(** [PurgeBuffers] has no guard: it reads [p.fd] at once. *)
Lemma PurgeBuffers_run (sp : Windows.serialPort) (clearRx clearTx : bool)
    (w : World S) :
  let flags := Windows.purgeFlags clearRx clearTx in
  let reply := osPurgeComm K (Windows.fd sp) flags (os w) in
  Windows.PurgeBuffers K (Some sp) clearRx clearTx w =
    (Returns (Windows.syscallResult (fst reply)),
     mkWorld (snd reply) (trace w ++ [SysPurgeComm (Windows.fd sp) flags])).
Proof.
  cbv zeta.
  unfold Windows.PurgeBuffers, Windows.purgeComm, Windows.load_fd, bind, perform, ret.
  destruct (osPurgeComm K (Windows.fd sp) (Windows.purgeFlags clearRx clearTx) (os w))
    as [reply s']. reflexivity.
Qed.

(** No guarded method panics. *)
Lemma SetTimeouts_returns (p : option Windows.serialPort) (t : Timeouts)
    (w : World S) :
  exists e, fst (Windows.SetTimeouts K p t w) = Returns e.
Proof.
  destruct (Windows.nilOrInvalid p) eqn:H.
  - rewrite (SetTimeouts_guarded p t w H). eexists. reflexivity.
  - destruct p as [sp |]; [| discriminate].
    rewrite (SetTimeouts_usable sp t w H). eexists. reflexivity.
Qed.

Lemma syscallResult_not_sentinel (reply : Z * Z) :
  Windows.syscallResult reply <> Some ErrInvalidOrNilPort.
Proof.
  destruct reply as [r e]. unfold Windows.syscallResult.
  destruct (r =? 0); discriminate.
Qed.

End WindowsRuns.

(** ** The current translator: claims *)

(** C3, as stated, at a read total of 2^32 ms (a little under fifty
    days, a well-formed [time.Duration]): the whole-millisecond count is
    4294967296, the DWORD handed to the driver is 0. *)
Lemma SetTimeouts_cto_wraps_at_2_32_ms :
  let t := mkTimeouts Millisecond (4294967296 * Millisecond) (100 * Millisecond) in
  wf_timeouts t /\
  0 <= ReadTotal t /\
  GoInt.div (ReadTotal t) Millisecond = 4294967296 /\
  ReadTotalTimeoutConstant (Windows.SetTimeouts_cto t) = 0 /\
  ReadTotalTimeoutConstant (Windows.SetTimeouts_cto t)
    <> GoInt.div (ReadTotal t) Millisecond.
Proof.
  cbv zeta. unfold wf_timeouts, GoInt.is_int64.
  cbn [ReadIntercharacter ReadTotal WriteTotal].
  split; [unfold Millisecond; lia |].
  split; [unfold Millisecond; lia |].
  split; [reflexivity |]. split; [reflexivity | discriminate].
Qed.

Lemma ms_truncates (d : Duration) :
  0 <= d ->
  GoInt.div d Millisecond * Millisecond <= d
    < (GoInt.div d Millisecond + 1) * Millisecond.
Proof.
  intros Hd. unfold GoInt.div, Millisecond.
  rewrite Z.quot_div_nonneg by lia.
  pose proof (Z.div_mod d 1000000 ltac:(lia)).
  pose proof (Z.mod_pos_bound d 1000000 ltac:(lia)). lia.
Qed.

Lemma ms_fits (d : Duration) :
  0 <= d < 2 ^ 32 * Millisecond ->
  GoInt.uint32 (GoInt.div d Millisecond) = GoInt.div d Millisecond.
Proof.
  intros Hd. apply uint32_small.
  unfold GoInt.div, Millisecond in *.
  rewrite Z.quot_div_nonneg by lia.
  split.
  - apply Z.div_pos; lia.
  - apply Z.div_lt_upper_bound; lia.
Qed.

(** C3 (amended).  The translation is a function of the [Timeouts]
    value alone.  Each of the three constants is the whole-millisecond
    count of its duration reduced modulo 2^32, hence that count itself
    for every duration from 0 up to, not including, 2^32 ms; the count
    truncates; both multipliers are 0; and this is the value a usable
    port hands to the driver, whatever the port and the world. *)
Theorem SetTimeouts_cto_translation (t : Timeouts) :
  let ms (d : Duration) := GoInt.div d Millisecond in
  let cto := Windows.SetTimeouts_cto t in
  cto = mkCTO (GoInt.uint32 (ms (ReadIntercharacter t))) 0
              (GoInt.uint32 (ms (ReadTotal t))) 0
              (GoInt.uint32 (ms (WriteTotal t))) /\
  (0 <= ReadIntercharacter t < 2 ^ 32 * Millisecond ->
   ReadIntervalTimeout cto = ms (ReadIntercharacter t) /\
   ms (ReadIntercharacter t) * Millisecond <= ReadIntercharacter t
     < (ms (ReadIntercharacter t) + 1) * Millisecond) /\
  (0 <= ReadTotal t < 2 ^ 32 * Millisecond ->
   ReadTotalTimeoutConstant cto = ms (ReadTotal t) /\
   ms (ReadTotal t) * Millisecond <= ReadTotal t
     < (ms (ReadTotal t) + 1) * Millisecond) /\
  (0 <= WriteTotal t < 2 ^ 32 * Millisecond ->
   WriteTotalTimeoutConstant cto = ms (WriteTotal t) /\
   ms (WriteTotal t) * Millisecond <= WriteTotal t
     < (ms (WriteTotal t) + 1) * Millisecond) /\
  ReadTotalTimeoutMultiplier cto = 0 /\
  WriteTotalTimeoutMultiplier cto = 0 /\
  (forall (S : Type) (K : HandleProvider S) (sp : Windows.serialPort) (w : World S),
     Windows.nilOrInvalid (Some sp) = false ->
     trace (snd (Windows.SetTimeouts K (Some sp) t w)) =
       trace w ++ [SysSetCommTimeouts (Windows.fd sp) cto]).
Proof.
  cbv zeta.
  split; [reflexivity |].
  split; [intros H; split; [apply (ms_fits _ H) | apply ms_truncates; lia] |].
  split; [intros H; split; [apply (ms_fits _ H) | apply ms_truncates; lia] |].
  split; [intros H; split; [apply (ms_fits _ H) | apply ms_truncates; lia] |].
  split; [reflexivity |]. split; [reflexivity |].
  intros S K sp w H. rewrite (SetTimeouts_usable K sp t w H). reflexivity.
Qed.

(** The default timeouts translate to 1, 100 and 100 ms. *)
Lemma SetTimeouts_cto_DefaultTimeouts :
  0 <= ReadTotal DefaultTimeouts < 2 ^ 32 * Millisecond /\
  ReadTotalTimeoutConstant (Windows.SetTimeouts_cto DefaultTimeouts) = 100.
Proof.
  assert (H : 0 <= ReadTotal DefaultTimeouts < 2 ^ 32 * Millisecond)
    by (cbn [ReadTotal DefaultTimeouts]; unfold Millisecond; lia).
  split; [exact H |].
  destruct (SetTimeouts_cto_translation DefaultTimeouts)
    as (_ & _ & Hrt & _).
  destruct (Hrt H) as [Heq _]. exact Heq.
Defined.

(** ** The port operation contract: claims *)

(** C5.  [SetTimeouts] answers with the invalid-port error exactly on a
    nil port or a zero / invalid handle, and then without touching the
    world.  Otherwise it copies the default baseline (1, 0, 100, 0, 100),
    assigns the three constants, leaves both multipliers at 0, and makes
    one [SetCommTimeouts] call, whose outcome it returns. *)
Theorem SetTimeouts_contract {S : Type} (K : HandleProvider S)
    (p : option Windows.serialPort) (t : Timeouts) (w : World S) :
  (fst (Windows.SetTimeouts K p t w) = Returns (Some ErrInvalidOrNilPort) <->
   Windows.nilOrInvalid p = true) /\
  (Windows.nilOrInvalid p = true <->
   p = None \/
   exists sp, p = Some sp /\ (Windows.fd sp = 0 \/ Windows.fd sp = InvalidHandle)) /\
  (Windows.nilOrInvalid p = true ->
   Windows.SetTimeouts K p t w = (Returns (Some ErrInvalidOrNilPort), w)) /\
  defaultWindowsCommTimeouts = mkCTO 1 0 100 0 100 /\
  (forall sp, p = Some sp -> Windows.nilOrInvalid p = false ->
     let cto :=
       set_WriteTotalTimeoutConstant
         (set_ReadTotalTimeoutConstant
            (set_ReadIntervalTimeout defaultWindowsCommTimeouts
               (GoInt.uint32 (GoInt.div (ReadIntercharacter t) Millisecond)))
            (GoInt.uint32 (GoInt.div (ReadTotal t) Millisecond)))
         (GoInt.uint32 (GoInt.div (WriteTotal t) Millisecond)) in
     let reply := osSetCommTimeouts K (Windows.fd sp) cto (os w) in
     ReadTotalTimeoutMultiplier cto = 0 /\
     WriteTotalTimeoutMultiplier cto = 0 /\
     Windows.SetTimeouts K p t w =
       (Returns (Windows.syscallResult (fst reply)),
        mkWorld (snd reply) (trace w ++ [SysSetCommTimeouts (Windows.fd sp) cto]))).
Proof.
  split.
  { split.
    - intros H. destruct (Windows.nilOrInvalid p) eqn:Hg; [reflexivity |].
      exfalso. destruct p as [sp |]; [| discriminate].
      rewrite (SetTimeouts_usable K sp t w Hg) in H. cbn [fst] in H.
      injection H as H. exact (syscallResult_not_sentinel _ H).
    - intros H. rewrite (SetTimeouts_guarded K p t w H). reflexivity. }
  split; [apply nilOrInvalid_true |].
  split; [apply SetTimeouts_guarded |].
  split; [reflexivity |].
  intros sp -> Hg. cbv zeta.
  split; [reflexivity |]. split; [reflexivity |].
  apply (SetTimeouts_usable K sp t w Hg).
Qed.

(** On the reference driver: the default timeouts reach the driver in
    one call and are installed. *)
Lemma SetTimeouts_on_reference_driver :
  Windows.nilOrInvalid RefDriver.COM = false /\
  Windows.SetTimeouts RefDriver.provider RefDriver.COM DefaultTimeouts RefDriver.boot =
    (Returns None,
     mkWorld (RefDriver.mkState [7] (mkCTO 1 0 100 0 100) [Byte.x41; Byte.x42])
             [SysSetCommTimeouts 7 (mkCTO 1 0 100 0 100)]).
Proof.
  split; [reflexivity |].
  destruct (SetTimeouts_contract RefDriver.provider RefDriver.COM
              DefaultTimeouts RefDriver.boot) as (_ & _ & _ & _ & H).
  destruct (H (Windows.mkPort 7) eq_refl eq_refl) as (_ & _ & Hrun).
  exact Hrun.
Defined.

(** C6, as stated, on the reference driver.  The first [Close] of an
    open port succeeds; [Close] does not reset the handle, so the second
    one passes the guard and reaches the driver again. *)
Lemma Close_twice_reaches_the_driver_twice :
  let r1 := Windows.Close RefDriver.provider RefDriver.COM RefDriver.boot in
  let r2 := Windows.Close RefDriver.provider RefDriver.COM (snd r1) in
  fst r1 = Returns None /\
  trace (snd r1) = [SysCloseHandle 7] /\
  fst r2 = Returns (Some (Errno RefDriver.ERROR_INVALID_HANDLE)) /\
  trace (snd r2) = [SysCloseHandle 7; SysCloseHandle 7] /\
  trace (snd r2) <> trace (snd r1).
Proof.
  cbv zeta.
  split; [reflexivity |]. split; [reflexivity |].
  split; [reflexivity |]. split; [reflexivity | discriminate].
Qed.

(** C6 (amended).  [Close] on a nil port or on a zero / invalid handle
    returns the invalid-port error and leaves the world as it was.  On
    any other port it makes one [CloseHandle] call and returns what the
    provider reports, and so does a second [Close] of the same port: the
    handle is still in the struct.  [Close] never panics. *)
Theorem Close_contract {S : Type} (K : HandleProvider S)
    (p : option Windows.serialPort) (w : World S) :
  (Windows.nilOrInvalid p = true ->
   Windows.Close K p w = (Returns (Some ErrInvalidOrNilPort), w)) /\
  (forall sp, p = Some sp -> Windows.nilOrInvalid p = false ->
     let r1 := osCloseHandle K (Windows.fd sp) (os w) in
     let w1 := snd (Windows.Close K p w) in
     let r2 := osCloseHandle K (Windows.fd sp) (os w1) in
     Windows.Close K p w =
       (Returns (errno_error (fst r1)),
        mkWorld (snd r1) (trace w ++ [SysCloseHandle (Windows.fd sp)])) /\
     Windows.Close K p w1 =
       (Returns (errno_error (fst r2)),
        mkWorld (snd r2)
          (trace w ++ [SysCloseHandle (Windows.fd sp);
                       SysCloseHandle (Windows.fd sp)]))) /\
  (exists e, fst (Windows.Close K p w) = Returns e) /\
  (exists e, fst (Windows.Close K p (snd (Windows.Close K p w))) = Returns e).
Proof.
  split; [apply Close_guarded |].
  split.
  { intros sp -> Hg. cbv zeta.
    rewrite (Close_usable K sp w Hg). cbn [snd].
    split; [reflexivity |].
    rewrite (Close_usable K sp _ Hg). cbn [os trace].
    rewrite <- app_assoc. reflexivity. }
  destruct (Windows.nilOrInvalid p) eqn:Hg.
  - rewrite (Close_guarded K p w Hg). cbn [snd].
    rewrite (Close_guarded K p w Hg). split; eexists; reflexivity.
  - destruct p as [sp |]; [| discriminate].
    rewrite (Close_usable K sp w Hg). cbn [snd].
    rewrite (Close_usable K sp _ Hg). split; eexists; reflexivity.
Qed.

(** On the reference driver: [Close] on a nil port is answered locally. *)
Lemma Close_nil_on_reference_driver :
  Windows.nilOrInvalid None = true /\
  Windows.Close RefDriver.provider None RefDriver.boot =
    (Returns (Some ErrInvalidOrNilPort), RefDriver.boot).
Proof.
  split; [reflexivity |].
  destruct (Close_contract RefDriver.provider None RefDriver.boot) as (H & _).
  exact (H eq_refl).
Defined.

(** C2 at its failing inputs.  [SetTimeouts], [Read], [Write] and
    [Close] answer a nil port or a zero / invalid handle locally (the
    [..._guarded] lemmas above).  [PurgeBuffers] does not: on a nil port
    it panics, and a zero or invalid handle goes to [PurgeComm] as it
    is. *)
Theorem PurgeBuffers_is_not_guarded {S : Type} (K : HandleProvider S)
    (clearRx clearTx : bool) (w : World S) :
  Windows.PurgeBuffers K None clearRx clearTx w = (Panics, w) /\
  Windows.nilOrInvalid (Some (Windows.mkPort 0)) = true /\
  trace (snd (Windows.PurgeBuffers K (Some (Windows.mkPort 0)) clearRx clearTx w)) =
    trace w ++ [SysPurgeComm 0 (Windows.purgeFlags clearRx clearTx)] /\
  Windows.nilOrInvalid (Some (Windows.mkPort InvalidHandle)) = true /\
  trace (snd (Windows.PurgeBuffers K (Some (Windows.mkPort InvalidHandle))
                clearRx clearTx w)) =
    trace w ++ [SysPurgeComm InvalidHandle (Windows.purgeFlags clearRx clearTx)] /\
  fst (Windows.PurgeBuffers K (Some (Windows.mkPort 0)) clearRx clearTx w) =
    Returns (Windows.syscallResult
               (fst (osPurgeComm K 0 (Windows.purgeFlags clearRx clearTx) (os w)))).
Proof.
  split; [reflexivity |]. split; [reflexivity |].
  split; [rewrite PurgeBuffers_run; reflexivity |].
  split; [reflexivity |].
  split; [rewrite PurgeBuffers_run; reflexivity |].
  rewrite PurgeBuffers_run. reflexivity.
Qed.

(** C4.  Each wrapper is [SetTimeouts] followed by the one transfer,
    whose result it returns: on a usable port exactly one
    [SetCommTimeouts] call and then exactly one [ReadFile] (or
    [WriteFile]) call on the caller's buffer, on any other port no call
    at all.  On the other builds the first step is a no-op and the
    wrapper is the bare stub. *)
Theorem WithTimeouts_is_SetTimeouts_then_transfer {S : Type}
    (K : HandleProvider S) (p : option Windows.serialPort)
    (RWC : Type) (p' : option (Other.serialPort RWC))
    (buf : list Byte.byte) (t : Timeouts) (w : World S) :
  ReadWithTimeouts (Windows.methods K) p buf t w = SetTimeouts_then_Read K p buf t w /\
  WriteWithTimeouts (Windows.methods K) p buf t w = SetTimeouts_then_Write K p buf t w /\
  trace (snd (ReadWithTimeouts (Windows.methods K) p buf t w)) =
    trace w ++ expected_calls p t (fun h => SysReadFile h buf) /\
  trace (snd (WriteWithTimeouts (Windows.methods K) p buf t w)) =
    trace w ++ expected_calls p t (fun h => SysWriteFile h buf) /\
  ReadWithTimeouts (Other.methods RWC) p' buf t w = Other.Read RWC p' buf w /\
  WriteWithTimeouts (Other.methods RWC) p' buf t w = Other.Write RWC p' buf w.
Proof.
  assert (HR : ReadWithTimeouts (Windows.methods K) p buf t w
               = SetTimeouts_then_Read K p buf t w).
  { unfold ReadWithTimeouts, SetTimeouts_then_Read, bind. cbn [mSetTimeouts mRead Windows.methods].
    destruct (SetTimeouts_returns K p t w) as [e He].
    destruct (Windows.SetTimeouts K p t w) as [r w1]. cbn [fst] in He. subst r.
    reflexivity. }
  assert (HW : WriteWithTimeouts (Windows.methods K) p buf t w
               = SetTimeouts_then_Write K p buf t w).
  { unfold WriteWithTimeouts, SetTimeouts_then_Write, bind. cbn [mSetTimeouts mWrite Windows.methods].
    destruct (SetTimeouts_returns K p t w) as [e He].
    destruct (Windows.SetTimeouts K p t w) as [r w1]. cbn [fst] in He. subst r.
    reflexivity. }
  split; [exact HR |]. split; [exact HW |].
  rewrite HR, HW. unfold SetTimeouts_then_Read, SetTimeouts_then_Write, expected_calls.
  destruct (Windows.nilOrInvalid p) eqn:Hg.
  - rewrite (SetTimeouts_guarded K p t w Hg). cbn [snd].
    rewrite (Read_guarded K p buf w Hg), (Write_guarded K p buf w Hg). cbn [snd].
    destruct p; rewrite app_nil_r; repeat split; reflexivity.
  - destruct p as [sp |]; [| discriminate].
    rewrite (SetTimeouts_usable K sp t w Hg). cbn [snd].
    rewrite (Read_usable K sp buf _ Hg), (Write_usable K sp buf _ Hg).
    cbn [snd trace]. rewrite <- !app_assoc. repeat split; reflexivity.
Qed.

(** C10.  What a wrapper returns is what the transfer returns in the
    world [SetTimeouts] left behind; the value [SetTimeouts] returned
    is not part of it.  In particular, when the driver refuses the
    configuration on a usable port ([r1 = 0], errno [e]),
    [SetTimeouts] alone reports [e], while the wrapper goes on to the
    transfer, against the provider state the refused call left, and
    returns the transfer's own count and error. *)
Theorem WithTimeouts_drops_SetTimeouts_error {S : Type}
    (K : HandleProvider S) (p : option Windows.serialPort)
    (buf : list Byte.byte) (t : Timeouts) (w : World S) :
  fst (ReadWithTimeouts (Windows.methods K) p buf t w) =
    fst (Windows.Read K p buf (snd (Windows.SetTimeouts K p t w))) /\
  fst (WriteWithTimeouts (Windows.methods K) p buf t w) =
    fst (Windows.Write K p buf (snd (Windows.SetTimeouts K p t w))) /\
  (forall sp e, p = Some sp -> Windows.nilOrInvalid p = false ->
     let refused :=
       osSetCommTimeouts K (Windows.fd sp) (Windows.SetTimeouts_cto t) (os w) in
     fst refused = (0, e) ->
     let rd := osReadFile K (Windows.fd sp) buf (snd refused) in
     let wr := osWriteFile K (Windows.fd sp) buf (snd refused) in
     fst (Windows.SetTimeouts K p t w) = Returns (Some (Errno e)) /\
     ReadWithTimeouts (Windows.methods K) p buf t w =
       (Returns (fst (fst (fst rd)), snd (fst (fst rd)), errno_error (snd (fst rd))),
        mkWorld (snd rd)
          (trace w ++ [SysSetCommTimeouts (Windows.fd sp) (Windows.SetTimeouts_cto t);
                       SysReadFile (Windows.fd sp) buf])) /\
     WriteWithTimeouts (Windows.methods K) p buf t w =
       (Returns (fst (fst wr), errno_error (snd (fst wr))),
        mkWorld (snd wr)
          (trace w ++ [SysSetCommTimeouts (Windows.fd sp) (Windows.SetTimeouts_cto t);
                       SysWriteFile (Windows.fd sp) buf]))).
Proof.
  unfold ReadWithTimeouts, WriteWithTimeouts, bind.
  cbn [mSetTimeouts mRead mWrite Windows.methods].
  split; [| split].
  - destruct (SetTimeouts_returns K p t w) as [e He].
    destruct (Windows.SetTimeouts K p t w) as [r w1]. cbn [fst] in He. subst r.
    reflexivity.
  - destruct (SetTimeouts_returns K p t w) as [e He].
    destruct (Windows.SetTimeouts K p t w) as [r w1]. cbn [fst] in He. subst r.
    reflexivity.
  - intros sp e -> Hg. cbv zeta. intros Hrefused.
    rewrite (SetTimeouts_usable K sp t w Hg). cbn [fst snd].
    rewrite Hrefused.
    rewrite (Read_usable K sp buf _ Hg), (Write_usable K sp buf _ Hg).
    cbn [os trace]. rewrite <- !app_assoc.
    repeat split; reflexivity.
Qed.

(** On the reference driver: a refused configuration.  [SetTimeouts]
    reports the refusal; [ReadWithTimeouts] returns the two waiting
    bytes and no error, and the driver still holds the configuration it
    held before. *)
Lemma ReadWithTimeouts_after_refused_SetTimeouts :
  Windows.nilOrInvalid RefDriver.COM = false /\
  fst (osSetCommTimeouts RefDriver.provider 7
         (Windows.SetTimeouts_cto RefDriver.refused) (os RefDriver.boot)) =
    (0, RefDriver.ERROR_INVALID_PARAMETER) /\
  fst (Windows.SetTimeouts RefDriver.provider RefDriver.COM RefDriver.refused
         RefDriver.boot) =
    Returns (Some (Errno RefDriver.ERROR_INVALID_PARAMETER)) /\
  ReadWithTimeouts (Windows.methods RefDriver.provider) RefDriver.COM
      [Byte.x00; Byte.x00; Byte.x00] RefDriver.refused RefDriver.boot =
    (Returns ([Byte.x41; Byte.x42; Byte.x00], 2, None),
     mkWorld (RefDriver.mkState [7] defaultWindowsCommTimeouts [])
       [SysSetCommTimeouts 7 (mkCTO MAXDWORD 0 MAXDWORD 0 100);
        SysReadFile 7 [Byte.x00; Byte.x00; Byte.x00]]).
Proof.
  split; [reflexivity |]. split; [reflexivity |].
  destruct (WithTimeouts_drops_SetTimeouts_error RefDriver.provider RefDriver.COM
              [Byte.x00; Byte.x00; Byte.x00] RefDriver.refused RefDriver.boot)
    as (_ & _ & H).
  destruct (H (Windows.mkPort 7) RefDriver.ERROR_INVALID_PARAMETER
              eq_refl eq_refl eq_refl) as (Hset & Hread & _).
  split; [exact Hset | exact Hread].
Defined.

(** C9.  On the other builds [SetTimeouts] and [PurgeBuffers] return nil
    for every port, nil included, every [Timeouts] value and every flag
    combination, and leave the world (provider state and call trace) as
    it was. *)
Theorem Other_SetTimeouts_PurgeBuffers_are_noops {S : Type} (RWC : Type)
    (p : option (Other.serialPort RWC)) (t : Timeouts)
    (clearRx clearTx : bool) (w : World S) :
  Other.SetTimeouts RWC p t w = (Returns None, w) /\
  Other.PurgeBuffers RWC p clearRx clearTx w = (Returns None, w) /\
  Other.SetTimeouts RWC None t w = (Returns None, w) /\
  Other.PurgeBuffers RWC None clearRx clearTx w = (Returns None, w) /\
  trace (snd (Other.SetTimeouts RWC p t w)) = trace w /\
  trace (snd (Other.PurgeBuffers RWC p clearRx clearTx w)) = trace w.
Proof. repeat split; reflexivity. Qed.

(** * Further properties of the modelled code *)

(** ** The guarded methods of an open port *)

(** X1.  [Read], [Write] and [Close] return the invalid-port error
    exactly on a nil port or a zero / invalid handle; they then report a
    count of 0, leave the buffer and the world untouched and make no
    call.  On every other port, and for every buffer including the empty
    one, they make exactly one call. *)
Theorem Read_Write_Close_local_error_iff {S : Type} (K : HandleProvider S)
    (p : option Windows.serialPort) (buf : list Byte.byte) (w : World S) :
  ((exists b n, fst (Windows.Read K p buf w) = Returns (b, n, Some ErrInvalidOrNilPort)) <->
   Windows.nilOrInvalid p = true) /\
  ((exists n, fst (Windows.Write K p buf w) = Returns (n, Some ErrInvalidOrNilPort)) <->
   Windows.nilOrInvalid p = true) /\
  (fst (Windows.Close K p w) = Returns (Some ErrInvalidOrNilPort) <->
   Windows.nilOrInvalid p = true) /\
  (Windows.nilOrInvalid p = true ->
   Windows.Read K p buf w = (Returns (buf, 0, Some ErrInvalidOrNilPort), w) /\
   Windows.Write K p buf w = (Returns (0, Some ErrInvalidOrNilPort), w) /\
   Windows.Close K p w = (Returns (Some ErrInvalidOrNilPort), w)) /\
  (forall sp, p = Some sp -> Windows.nilOrInvalid p = false ->
   trace (snd (Windows.Read K p buf w)) = trace w ++ [SysReadFile (Windows.fd sp) buf] /\
   trace (snd (Windows.Write K p buf w)) = trace w ++ [SysWriteFile (Windows.fd sp) buf] /\
   trace (snd (Windows.Close K p w)) = trace w ++ [SysCloseHandle (Windows.fd sp)]).
Proof.
  assert (Hno : forall e : option Z, errno_error e <> Some ErrInvalidOrNilPort).
  { intros [e |]; discriminate. }
  split; [| split; [| split; [| split]]].
  - split.
    + intros (b & n & H). destruct (Windows.nilOrInvalid p) eqn:Hg; [reflexivity |].
      exfalso. destruct p as [sp |]; [| discriminate].
      rewrite (Read_usable K sp buf w Hg) in H. cbn [fst] in H.
      injection H as _ _ H. exact (Hno _ H).
    + intros Hg. rewrite (Read_guarded K p buf w Hg). exists buf, 0. reflexivity.
  - split.
    + intros (n & H). destruct (Windows.nilOrInvalid p) eqn:Hg; [reflexivity |].
      exfalso. destruct p as [sp |]; [| discriminate].
      rewrite (Write_usable K sp buf w Hg) in H. cbn [fst] in H.
      injection H as _ H. exact (Hno _ H).
    + intros Hg. rewrite (Write_guarded K p buf w Hg). exists 0. reflexivity.
  - split.
    + intros H. destruct (Windows.nilOrInvalid p) eqn:Hg; [reflexivity |].
      exfalso. destruct p as [sp |]; [| discriminate].
      rewrite (Close_usable K sp w Hg) in H. cbn [fst] in H.
      injection H as H. exact (Hno _ H).
    + intros Hg. rewrite (Close_guarded K p w Hg). reflexivity.
  - intros Hg. split; [apply Read_guarded | split; [apply Write_guarded | apply Close_guarded]];
      exact Hg.
  - intros sp -> Hg.
    rewrite (Read_usable K sp buf w Hg), (Write_usable K sp buf w Hg),
      (Close_usable K sp w Hg).
    repeat split; reflexivity.
Qed.

(** On the reference driver: reading into an empty buffer still reaches
    the driver, and a nil port does not. *)
Lemma Read_empty_buffer_on_reference_driver :
  Windows.nilOrInvalid RefDriver.COM = false /\
  Windows.nilOrInvalid None = true /\
  trace (snd (Windows.Read RefDriver.provider RefDriver.COM [] RefDriver.boot)) =
    [SysReadFile 7 []] /\
  Windows.Read RefDriver.provider None [] RefDriver.boot =
    (Returns ([], 0, Some ErrInvalidOrNilPort), RefDriver.boot).
Proof.
  split; [reflexivity |]. split; [reflexivity |].
  destruct (Read_Write_Close_local_error_iff RefDriver.provider RefDriver.COM []
              RefDriver.boot) as (_ & _ & _ & _ & Hrun).
  destruct (Hrun (Windows.mkPort 7) eq_refl eq_refl) as (Hread & _).
  destruct (Read_Write_Close_local_error_iff RefDriver.provider None []
              RefDriver.boot) as (_ & _ & _ & Hnil & _).
  destruct (Hnil eq_refl) as (Hnilread & _).
  split; [exact Hread | exact Hnilread].
Defined.

(** ** What the two kernel32 wrappers return *)

(** X2.  [SetTimeouts] on a usable port and [PurgeBuffers] on a non-nil
    one return nil exactly when the procedure's first result is not
    zero.  When it is zero they return the errno as a non-nil error,
    whatever its value, zero included. *)
Theorem kernel32_result_nil_iff_r1_nonzero {S : Type} (K : HandleProvider S)
    (sp : Windows.serialPort) (t : Timeouts) (clearRx clearTx : bool)
    (w : World S) :
  let set := osSetCommTimeouts K (Windows.fd sp) (Windows.SetTimeouts_cto t) (os w) in
  let purge :=
    osPurgeComm K (Windows.fd sp) (Windows.purgeFlags clearRx clearTx) (os w) in
  (Windows.nilOrInvalid (Some sp) = false ->
   (fst (Windows.SetTimeouts K (Some sp) t w) = Returns None <-> fst (fst set) <> 0) /\
   (fst (fst set) = 0 ->
    fst (Windows.SetTimeouts K (Some sp) t w) = Returns (Some (Errno (snd (fst set)))))) /\
  (fst (Windows.PurgeBuffers K (Some sp) clearRx clearTx w) = Returns None <->
   fst (fst purge) <> 0) /\
  (fst (fst purge) = 0 ->
   fst (Windows.PurgeBuffers K (Some sp) clearRx clearTx w) =
     Returns (Some (Errno (snd (fst purge))))).
Proof.
  cbv zeta.
  assert (Hres : forall reply : Z * Z,
             (Windows.syscallResult reply = None <-> fst reply <> 0) /\
             (fst reply = 0 -> Windows.syscallResult reply = Some (Errno (snd reply)))).
  { intros [r e]. unfold Windows.syscallResult. cbn [fst snd].
    destruct (r =? 0) eqn:E.
    - apply Z.eqb_eq in E. split; [split; [discriminate | intros H; contradiction] |].
      intros _. reflexivity.
    - apply Z.eqb_neq in E. split; [split; [intros _; exact E | reflexivity] |].
      intros H. contradiction. }
  split; [| split].
  - intros Hg. rewrite (SetTimeouts_usable K sp t w Hg). cbn [fst].
    destruct (Hres (fst (osSetCommTimeouts K (Windows.fd sp)
                           (Windows.SetTimeouts_cto t) (os w)))) as [Hiff Hz].
    split.
    + rewrite <- Hiff. split; [intros H; injection H as H; exact H | intros ->; reflexivity].
    + intros H. rewrite (Hz H). reflexivity.
  - rewrite PurgeBuffers_run. cbn [fst].
    destruct (Hres (fst (osPurgeComm K (Windows.fd sp)
                           (Windows.purgeFlags clearRx clearTx) (os w)))) as [Hiff _].
    rewrite <- Hiff. split; [intros H; injection H as H; exact H | intros ->; reflexivity].
  - intros H. rewrite PurgeBuffers_run. cbn [fst].
    destruct (Hres (fst (osPurgeComm K (Windows.fd sp)
                           (Windows.purgeFlags clearRx clearTx) (os w)))) as [_ Hz].
    rewrite (Hz H). reflexivity.
Qed.

(** On the reference driver: purging a handle the driver does not know
    fails with the driver's errno. *)
Lemma PurgeBuffers_unknown_handle_on_reference_driver :
  fst (fst (osPurgeComm RefDriver.provider 9 (Windows.purgeFlags true true)
              (os RefDriver.boot))) = 0 /\
  fst (Windows.PurgeBuffers RefDriver.provider (Some (Windows.mkPort 9)) true true
         RefDriver.boot) = Returns (Some (Errno RefDriver.ERROR_INVALID_HANDLE)).
Proof.
  split; [reflexivity |].
  destruct (kernel32_result_nil_iff_r1_nonzero RefDriver.provider (Windows.mkPort 9)
              DefaultTimeouts true true RefDriver.boot) as (_ & _ & H).
  exact (H eq_refl).
Defined.

(** ** The purge flags *)

Lemma testbit_small (x i : Z) : 0 <= x < 16 -> 4 <= i -> Z.testbit x i = false.
Proof.
  intros Hx Hi. destruct (Z.eq_dec x 0) as [-> | Hnz].
  - apply Z.bits_0.
  - apply Z.bits_above_log2; [lia |].
    assert (Z.log2 x < 4); [| lia].
    apply Z.log2_lt_pow2; [lia |]. simpl. lia.
Qed.

(** X3.  The flags word [PurgeBuffers] passes on carries the two
    requests independently: bit 3 is [clearRx], bit 2 is [clearTx], and
    no other bit is ever set.  A non-nil port makes exactly one
    [PurgeComm] call with that word, also when both requests are
    false. *)
Theorem PurgeBuffers_flags {S : Type} (K : HandleProvider S)
    (sp : Windows.serialPort) (clearRx clearTx : bool) (w : World S) :
  Windows.purgeFlags clearRx clearTx = 8 * Z.b2z clearRx + 4 * Z.b2z clearTx /\
  (forall i, Z.testbit (Windows.purgeFlags clearRx clearTx) i =
             ((i =? 3) && clearRx) || ((i =? 2) && clearTx)) /\
  trace (snd (Windows.PurgeBuffers K (Some sp) clearRx clearTx w)) =
    trace w ++ [SysPurgeComm (Windows.fd sp) (8 * Z.b2z clearRx + 4 * Z.b2z clearTx)].
Proof.
  assert (Hval : Windows.purgeFlags clearRx clearTx
                 = 8 * Z.b2z clearRx + 4 * Z.b2z clearTx)
    by (destruct clearRx, clearTx; reflexivity).
  split; [exact Hval |]. split.
  - intros i.
    destruct (Z_lt_le_dec i 0) as [Hneg | Hnn].
    { rewrite Z.testbit_neg_r by lia.
      replace (i =? 3) with false by (symmetry; apply Z.eqb_neq; lia).
      replace (i =? 2) with false by (symmetry; apply Z.eqb_neq; lia).
      reflexivity. }
    destruct (Z_lt_le_dec i 4) as [Hlt | Hge].
    { assert (Hi : i = 0 \/ i = 1 \/ i = 2 \/ i = 3) by lia.
      destruct Hi as [-> | [-> | [-> | ->]]]; destruct clearRx, clearTx; reflexivity. }
    rewrite testbit_small.
    + replace (i =? 3) with false by (symmetry; apply Z.eqb_neq; lia).
      replace (i =? 2) with false by (symmetry; apply Z.eqb_neq; lia).
      reflexivity.
    + rewrite Hval. destruct clearRx, clearTx; simpl; lia.
    + exact Hge.
  - rewrite PurgeBuffers_run. cbn [snd trace]. rewrite Hval. reflexivity.
Qed.

(** ** More on the current translation *)



(** X5.  Within the range the driver parameters can express (every
    field from 0 up to, not including, 2^32 ms) the translation is
    monotone in each duration, and two [Timeouts] values yield the same
    driver parameters exactly when their three whole-millisecond counts
    agree. *)
Theorem SetTimeouts_cto_monotone_and_faithful (t1 t2 : Timeouts) :
  let ms (d : Duration) := d / Millisecond in
  let fits (d : Duration) := 0 <= d < 2 ^ 32 * Millisecond in
  fits (ReadIntercharacter t1) -> fits (ReadTotal t1) -> fits (WriteTotal t1) ->
  fits (ReadIntercharacter t2) -> fits (ReadTotal t2) -> fits (WriteTotal t2) ->
  (ReadIntercharacter t1 <= ReadIntercharacter t2 ->
   ReadIntervalTimeout (Windows.SetTimeouts_cto t1)
     <= ReadIntervalTimeout (Windows.SetTimeouts_cto t2)) /\
  (ReadTotal t1 <= ReadTotal t2 ->
   ReadTotalTimeoutConstant (Windows.SetTimeouts_cto t1)
     <= ReadTotalTimeoutConstant (Windows.SetTimeouts_cto t2)) /\
  (WriteTotal t1 <= WriteTotal t2 ->
   WriteTotalTimeoutConstant (Windows.SetTimeouts_cto t1)
     <= WriteTotalTimeoutConstant (Windows.SetTimeouts_cto t2)) /\
  (Windows.SetTimeouts_cto t1 = Windows.SetTimeouts_cto t2 <->
   ms (ReadIntercharacter t1) = ms (ReadIntercharacter t2) /\
   ms (ReadTotal t1) = ms (ReadTotal t2) /\
   ms (WriteTotal t1) = ms (WriteTotal t2)).
Proof.
  cbv zeta. intros Ha1 Hb1 Hc1 Ha2 Hb2 Hc2.
  assert (Hf : forall d, 0 <= d < 2 ^ 32 * Millisecond ->
                 GoInt.uint32 (GoInt.div d Millisecond) = d / Millisecond).
  { intros d Hd. rewrite (ms_fits d Hd). unfold GoInt.div, Millisecond in *.
    apply Z.quot_div_nonneg; lia. }
  unfold Windows.SetTimeouts_cto, set_WriteTotalTimeoutConstant,
    set_ReadTotalTimeoutConstant, set_ReadIntervalTimeout.
  cbn [ReadIntervalTimeout ReadTotalTimeoutMultiplier ReadTotalTimeoutConstant
       WriteTotalTimeoutMultiplier WriteTotalTimeoutConstant defaultWindowsCommTimeouts].
  rewrite !Hf by assumption.
  split; [intros H; apply Z.div_le_mono; [unfold Millisecond; lia | exact H] |].
  split; [intros H; apply Z.div_le_mono; [unfold Millisecond; lia | exact H] |].
  split; [intros H; apply Z.div_le_mono; [unfold Millisecond; lia | exact H] |].
  split.
  - intros H. injection H as Hi Hr Hw. repeat split; assumption.
  - intros (Hi & Hr & Hw). rewrite Hi, Hr, Hw. reflexivity.
Qed.

(** 1.2 ms and 1.9 ms of read total are the same request to the driver. *)
Lemma SetTimeouts_cto_same_millisecond :
  Windows.SetTimeouts_cto (mkTimeouts 0 1200000 0) =
  Windows.SetTimeouts_cto (mkTimeouts 0 1900000 0).
Proof.
  assert (Hz : 0 <= 0 < 2 ^ 32 * Millisecond) by (unfold Millisecond; lia).
  assert (H12 : 0 <= 1200000 < 2 ^ 32 * Millisecond) by (unfold Millisecond; lia).
  assert (H19 : 0 <= 1900000 < 2 ^ 32 * Millisecond) by (unfold Millisecond; lia).
  destruct (SetTimeouts_cto_monotone_and_faithful
              (mkTimeouts 0 1200000 0) (mkTimeouts 0 1900000 0)
              Hz H12 Hz Hz H19 Hz) as (_ & _ & _ & Hiff).
  apply Hiff. repeat split; reflexivity.
Defined.

(** ** More on the legacy translator *)

Lemma cto_first_arm (o : OpenOptions) :
  50 <= InterCharacterTimeout o < 429496729550 ->
  GoInt.uint32 (MinimumReadSize o) = 0 ->
  ctoFromOpenOptions o =
    mkCTO MAXDWORD MAXDWORD ((InterCharacterTimeout o + 50) / 100) 0 0.
Proof.
  intros Hk Hm.
  assert (Htc : timeoutConstant o = (InterCharacterTimeout o + 50) / 100)
    by (apply timeoutConstant_round_half_up; lia).
  assert (Hpos : 0 < (InterCharacterTimeout o + 50) / 100)
    by (apply Z.div_str_pos; lia).
  rewrite cto_NonBlocking.
  - rewrite Htc. reflexivity.
  - apply legacyBranch_NonBlocking. unfold readIntervalTimeout. lia.
Qed.

Lemma cto_fallback_arm (o : OpenOptions) :
  0 <= InterCharacterTimeout o < 50 ->
  GoInt.uint32 (MinimumReadSize o) = 0 ->
  ctoFromOpenOptions o = mkCTO MAXDWORD MAXDWORD (MAXDWORD - 1) 0 0.
Proof.
  intros Hk Hm. apply cto_UseDefaults. apply legacyBranch_UseDefaults.
  rewrite (timeoutConstant_round_half_up o) by lia.
  rewrite Z.div_small by lia. unfold readIntervalTimeout. lia.
Qed.

(** X6.  Whatever the options, the legacy translator leaves both write
    fields at 0, keeps every read field within a DWORD, never returns a
    zero read total constant, and sets the read total multiplier to 1
    exactly when the minimum read size is not zero as a [uint32]
    (otherwise to [MAXDWORD], together with the read interval). *)
Theorem ctoFromOpenOptions_invariants (o : OpenOptions) :
  let c := ctoFromOpenOptions o in
  WriteTotalTimeoutMultiplier c = 0 /\
  WriteTotalTimeoutConstant c = 0 /\
  0 <= ReadIntervalTimeout c <= MAXDWORD /\
  0 < ReadTotalTimeoutConstant c <= MAXDWORD /\
  (ReadTotalTimeoutMultiplier c = 1 \/ ReadTotalTimeoutMultiplier c = MAXDWORD) /\
  (ReadTotalTimeoutMultiplier c = 1 <-> GoInt.uint32 (MinimumReadSize o) <> 0) /\
  (GoInt.uint32 (MinimumReadSize o) = 0 ->
   ReadIntervalTimeout c = MAXDWORD /\ ReadTotalTimeoutMultiplier c = MAXDWORD).
Proof.
  cbv zeta.
  pose proof (timeoutConstant_range o) as Htc.
  pose proof (readIntervalTimeout_range o) as Hri.
  change (2 ^ 32) with 4294967296 in *.
  destruct (legacyBranch (timeoutConstant o) (readIntervalTimeout o)) eqn:Hb.
  - rewrite (cto_NonBlocking o Hb).
    apply legacyBranch_NonBlocking in Hb. destruct Hb as [Hpos Hz].
    unfold readIntervalTimeout in *. unfold MAXDWORD.
    cbn [ReadIntervalTimeout ReadTotalTimeoutMultiplier ReadTotalTimeoutConstant
         WriteTotalTimeoutMultiplier WriteTotalTimeoutConstant].
    change (2 ^ 32 - 1) with 4294967295.
    split; [reflexivity |]. split; [reflexivity |]. split; [lia |]. split; [lia |].
    split; [right; reflexivity |]. split; [split; intros; lia |].
    intros _. split; reflexivity.
  - rewrite (cto_BlockForInput o Hb).
    apply legacyBranch_BlockForInput in Hb.
    unfold readIntervalTimeout in *. unfold MAXDWORD.
    cbn [ReadIntervalTimeout ReadTotalTimeoutMultiplier ReadTotalTimeoutConstant
         WriteTotalTimeoutMultiplier WriteTotalTimeoutConstant].
    change (2 ^ 32 - 1) with 4294967295.
    split; [reflexivity |]. split; [reflexivity |]. split; [lia |]. split; [lia |].
    split; [left; reflexivity |]. split; [split; intros; lia |].
    intros H. lia.
  - rewrite (cto_UseDefaults o Hb).
    apply legacyBranch_UseDefaults in Hb. destruct Hb as [_ Hz].
    unfold readIntervalTimeout in *. unfold MAXDWORD.
    cbn [ReadIntervalTimeout ReadTotalTimeoutMultiplier ReadTotalTimeoutConstant
         WriteTotalTimeoutMultiplier WriteTotalTimeoutConstant].
    change (2 ^ 32 - 1) with 4294967295.
    split; [reflexivity |]. split; [reflexivity |]. split; [lia |]. split; [lia |].
    split; [right; reflexivity |]. split; [split; intros; lia |].
    intros _. split; reflexivity.
Qed.

(** With no options at all the multiplier is [MAXDWORD]. *)
Lemma ctoFromOpenOptions_0_0_multiplier :
  GoInt.uint32 0 = 0 /\
  ReadTotalTimeoutMultiplier (ctoFromOpenOptions (mkOpenOptions 0 0)) = MAXDWORD.
Proof.
  split; [reflexivity |].
  destruct (ctoFromOpenOptions_invariants (mkOpenOptions 0 0))
    as (_ & _ & _ & _ & _ & _ & H).
  destruct (H eq_refl) as [_ Hm]. exact Hm.
Defined.

(** X7.  The pattern the comment in [ctoFromOpenOptions] quotes: read
    interval and multiplier at [MAXDWORD] and a read total constant
    greater than zero and less than [MAXDWORD].  With no minimum read
    size the translator produces it for every inter-character timeout
    below 429496729450 ms, and from 50 ms on the constant is within half
    a unit of the timeout divided by 100; from 429496729450 ms up to the
    end of the DWORD range the constant is [MAXDWORD] itself. *)
Theorem ctoFromOpenOptions_documented_pattern (o : OpenOptions) :
  let c := ctoFromOpenOptions o in
  let t := InterCharacterTimeout o in
  GoInt.uint32 (MinimumReadSize o) = 0 ->
  (0 <= t < 429496729450 ->
   ReadIntervalTimeout c = MAXDWORD /\
   ReadTotalTimeoutMultiplier c = MAXDWORD /\
   0 < ReadTotalTimeoutConstant c < MAXDWORD) /\
  (50 <= t < 429496729550 ->
   100 * ReadTotalTimeoutConstant c - 50 <= t < 100 * ReadTotalTimeoutConstant c + 50) /\
  (429496729450 <= t < 429496729550 ->
   ReadTotalTimeoutConstant c = MAXDWORD).
Proof.
  cbv zeta. intros Hm.
  assert (Hdiv : forall k, 100 * ((k + 50) / 100) <= k + 50 < 100 * ((k + 50) / 100) + 100).
  { intros k. pose proof (Z.div_mod (k + 50) 100 ltac:(lia)).
    pose proof (Z.mod_pos_bound (k + 50) 100 ltac:(lia)). lia. }
  split; [| split].
  - intros Ht.
    destruct (Z_lt_le_dec (InterCharacterTimeout o) 50) as [Hlt | Hge].
    + rewrite (cto_fallback_arm o) by (try lia; exact Hm).
      unfold MAXDWORD. cbn. lia.
    + rewrite (cto_first_arm o) by (try lia; exact Hm).
      unfold MAXDWORD.
      cbn [ReadIntervalTimeout ReadTotalTimeoutMultiplier ReadTotalTimeoutConstant].
      pose proof (Hdiv (InterCharacterTimeout o)).
      repeat split; try reflexivity; lia.
  - intros Ht. rewrite (cto_first_arm o) by (try lia; exact Hm).
    cbn [ReadTotalTimeoutConstant].
    pose proof (Hdiv (InterCharacterTimeout o)). lia.
  - intros Ht. rewrite (cto_first_arm o) by (try lia; exact Hm).
    cbn [ReadTotalTimeoutConstant]. unfold MAXDWORD.
    pose proof (Hdiv (InterCharacterTimeout o)). lia.
Qed.

(** One second of inter-character timeout: the constant is 10. *)
Lemma ctoFromOpenOptions_1000_0_pattern :
  GoInt.uint32 0 = 0 /\ 0 <= 1000 < 429496729450 /\
  ReadTotalTimeoutConstant (ctoFromOpenOptions (mkOpenOptions 1000 0)) = 10.
Proof.
  split; [reflexivity |]. split; [lia |].
  destruct (ctoFromOpenOptions_documented_pattern (mkOpenOptions 1000 0) eq_refl)
    as (_ & Hnear & _).
  cbn [InterCharacterTimeout] in Hnear.
  assert (H : 50 <= 1000 < 429496729550) by lia.
  specialize (Hnear H). lia.
Defined.

(** ** The rounding helper *)

(** X8.  [round] returns every whole number up to 2^52 unchanged: adding
    one half is exact there, and the floor takes it away again. *)
Theorem round_of_integer (n : Z) :
  0 <= n < 2 ^ 52 -> round (Float64.of_int n) = Float64.of_int n.
Proof.
  intros Hn. destruct n as [| k | k]; [reflexivity | | lia].
  change (2 ^ 52) with 4503599627370496 in Hn.
  destruct (of_int_exact k 60) as (ma & ea & Ha & Hda & Hea & Hva);
    [change (2 ^ 53) with 9007199254740992; lia | lia |].
  pose proof (digits2_pos_bounds ma) as Hma. rewrite Hda in Hma.
  change (2 ^ (53 - 1)) with 4503599627370496 in Hma.
  change (2 ^ 53) with 9007199254740992 in Hma.
  assert (Hca : 0 < 2 ^ (ea + 60)) by (apply Z.pow_pos_nonneg; lia).
  assert (Hea_hi : ea < 0).
  { assert (Hlt : 2 ^ (ea + 60) < 2 ^ 60).
    { change (2 ^ 60) with 1152921504606846976 in *. nia. }
    apply pow2_exp_lt in Hlt; lia. }
  unfold round. rewrite Ha.
  destruct (add_half_faithful ma ea 60)
    as (mc & ec & u & Hc & Hdc & Hec & Hu & Hbc & Hmagc & Hexc);
    [exact Hda | lia | lia | lia |].
  rewrite Hva in Hbc, Hmagc, Hexc.
  change (2 ^ (60 - 1)) with 576460752303423488 in *.
  change (2 ^ 52) with 4503599627370496 in Hmagc.
  change (2 ^ 60) with 1152921504606846976 in *.
  assert (HU : 0 < 2 ^ u) by (apply Z.pow_pos_nonneg; lia).
  assert (Hu_hi : u <= 59).
  { assert (Hlt : 2 ^ u < 2 ^ 60).
    { change (2 ^ 60) with 1152921504606846976. nia. }
    apply pow2_exp_lt in Hlt; lia. }
  assert (Hval : Zpos mc * 2 ^ (ec + 60)
                 = Zpos k * 1152921504606846976 + 576460752303423488).
  { apply Hexc.
    replace (Zpos k * 1152921504606846976 + 576460752303423488)
      with ((2 * Zpos k + 1) * 2 ^ 59)
      by (change (2 ^ 59) with 576460752303423488; ring).
    apply mod_pow2_mul. lia. }
  rewrite Hc.
  (* the sum is not a whole number: its exponent is negative *)
  assert (Hneg : ec < 0).
  { destruct (Z_lt_le_dec ec 0) as [| Hge]; [assumption |]. exfalso.
    assert (Hsplit : 2 ^ (ec + 60) = 2 ^ ec * 1152921504606846976).
    { rewrite Z.pow_add_r by lia. reflexivity. }
    rewrite Hsplit in Hval.
    assert (Hmod : (Zpos mc * (2 ^ ec * 1152921504606846976)) mod 1152921504606846976 = 0).
    { rewrite Z.mul_assoc. apply Z.mod_mul. lia. }
    rewrite Hval in Hmod.
    rewrite Z.add_comm, Z.mod_add in Hmod by lia.
    discriminate. }
  unfold Float64.Floor.
  replace (0 <=? ec) with false by (symmetry; apply Z.leb_gt; exact Hneg).
  unfold Float64.smant, cond_Zopp.
  enough (Hq : Zpos mc / 2 ^ (- ec) = Zpos k).
  { rewrite Hq. exact Ha. }
  assert (Hsplit : 1152921504606846976 = 2 ^ (ec + 60) * 2 ^ (- ec)).
  { change 1152921504606846976 with (2 ^ 60).
    rewrite <- Z.pow_add_r by lia. f_equal. lia. }
  assert (Hhalf : 2 ^ (- ec) = 2 * 2 ^ (- ec - 1)).
  { replace (- ec) with (Z.succ (- ec - 1)) at 1 by lia.
    apply Z.pow_succ_r. lia. }
  assert (Hs : 0 < 2 ^ (- ec - 1)) by (apply Z.pow_pos_nonneg; lia).
  assert (Hc0 : 0 < 2 ^ (ec + 60)) by (apply Z.pow_pos_nonneg; lia).
  assert (Hmc : Zpos mc = Zpos k * 2 ^ (- ec) + 2 ^ (- ec - 1)).
  { assert (H59 : 576460752303423488 = 2 ^ (ec + 60) * 2 ^ (- ec - 1)).
    { change 576460752303423488 with (2 ^ 59).
      rewrite <- Z.pow_add_r by lia. f_equal. lia. }
    rewrite Hsplit in Hval at 1. rewrite H59 in Hval. nia. }
  symmetry. apply Z.div_unique with (2 ^ (- ec - 1)); [lia |].
  rewrite Hmc. ring.
Qed.

(** [round(3.0)] is [3.0]. *)
Lemma round_of_3 :
  0 <= 3 < 2 ^ 52 /\ round (Float64.of_int 3) = Float64.of_int 3.
Proof.
  assert (H : 0 <= 3 < 2 ^ 52) by (simpl; lia).
  split; [exact H | exact (round_of_integer 3 H)].
Defined.

(** ** The DCB [setCommState] builds *)

(** X9.  The flag bytes of the DCB can be read back: in [flags[0]] bit 0
    (binary mode) and bit 4 are always set, bit 1 is set exactly when
    the parity mode is not [PARITY_NONE], bit 2 exactly when RTS/CTS
    flow control is requested; [flags[1]] is 0x20 with RTS/CTS and 0
    without; the other two bytes stay 0.  Nothing else in the options
    reaches the flags. *)
Theorem setCommState_flags (PARITY_NONE : Z) (o : OpenWindows.Options.t) :
  let params := OpenWindows.setCommState_params PARITY_NONE o in
  let parity := negb (OpenWindows.Options.ParityMode o =? PARITY_NONE) in
  let rtscts := OpenWindows.Options.RTSCTSFlowControl o in
  OpenWindows.flags params =
    [17 + 2 * Z.b2z parity + 4 * Z.b2z rtscts; 32 * Z.b2z rtscts; 0; 0] /\
  Z.testbit (nth 0 (OpenWindows.flags params) 0) 0 = true /\
  Z.testbit (nth 0 (OpenWindows.flags params) 0) 4 = true /\
  Z.testbit (nth 0 (OpenWindows.flags params) 0) 1 = parity /\
  Z.testbit (nth 0 (OpenWindows.flags params) 0) 2 = rtscts /\
  Z.testbit (nth 1 (OpenWindows.flags params) 0) 5 = rtscts.
Proof.
  cbv zeta. unfold OpenWindows.setCommState_params.
  destruct (OpenWindows.Options.ParityMode o =? PARITY_NONE);
    destruct (OpenWindows.Options.StopBits o =? 1);
    destruct (OpenWindows.Options.StopBits o =? 2);
    destruct (OpenWindows.Options.RTSCTSFlowControl o);
    cbn; repeat split; reflexivity.
Qed.



(** ** Opening a port *)

Lemma with_PortName_params (PARITY_NONE : Z) (o : OpenWindows.Options.t)
    (name : String.string) :
  OpenWindows.setCommState_params PARITY_NONE (OpenWindows.with_PortName o name) =
  OpenWindows.setCommState_params PARITY_NONE o.
Proof. reflexivity. Qed.

(** X11.  The device prefix is added at most once: [devicePath] is
    idempotent, leaves the empty name and every name that starts with a
    backslash as they are, and otherwise puts the four characters
    [\\.\] in front; its result is empty only for the empty name and
    otherwise starts with a backslash. *)
Theorem devicePath_properties (name : String.string) :
  OpenWindows.devicePath (OpenWindows.devicePath name) = OpenWindows.devicePath name /\
  (OpenWindows.devicePath name = String.EmptyString <-> name = String.EmptyString) /\
  (forall rest, name = String.String (Ascii.ascii_of_nat 92) rest ->
     OpenWindows.devicePath name = name) /\
  (forall c rest, name = String.String c rest -> c <> Ascii.ascii_of_nat 92 ->
     OpenWindows.devicePath name =
       String.String (Ascii.ascii_of_nat 92)
         (String.String (Ascii.ascii_of_nat 92)
            (String.String (Ascii.ascii_of_nat 46)
               (String.String (Ascii.ascii_of_nat 92) name))) /\
     String.length (OpenWindows.devicePath name) = (4 + String.length name)%nat) /\
  (name <> String.EmptyString ->
   exists rest, OpenWindows.devicePath name = String.String (Ascii.ascii_of_nat 92) rest).
Proof.
  change (Ascii.ascii_of_nat 92)
    with (Ascii.Ascii false false true true true false true false).
  set (bs := Ascii.Ascii false false true true true false true false).
  destruct name as [| c rest].
  - cbn. split; [reflexivity |]. split; [tauto |].
    split; [intros; discriminate |]. split; [intros; discriminate |].
    intros H. contradiction.
  - unfold OpenWindows.devicePath. fold bs.
    destruct (Ascii.eqb_spec c bs) as [-> | Hc].
    + cbn [negb]. unfold bs at 1. cbn [negb Ascii.eqb Bool.eqb]. fold bs.
      split; [reflexivity |]. split; [split; intros; discriminate |].
      split; [intros; reflexivity |].
      split; [intros c r H Hc; injection H as <- _; contradiction |].
      intros _. eexists. reflexivity.
    + cbn [negb String.append]. fold bs.
      rewrite Ascii.eqb_refl. cbn [negb].
      split; [reflexivity |]. split; [split; intros; discriminate |].
      split; [intros r H; injection H as -> _; contradiction |].
      split; [intros c' r H _; injection H as <- <-; split; reflexivity |].
      intros _. eexists. reflexivity.
Qed.

(** [COM3] becomes [\\.\COM3], and stays so. *)
Lemma devicePath_COM3 :
  let COM3 :=
    String.String (Ascii.ascii_of_nat 67)
      (String.String (Ascii.ascii_of_nat 79)
         (String.String (Ascii.ascii_of_nat 77)
            (String.String (Ascii.ascii_of_nat 51) String.EmptyString))) in
  Ascii.ascii_of_nat 67 <> Ascii.ascii_of_nat 92 /\
  String.length (OpenWindows.devicePath COM3) = 8%nat.
Proof.
  cbv zeta.
  assert (Hc : Ascii.ascii_of_nat 67 <> Ascii.ascii_of_nat 92) by discriminate.
  split; [exact Hc |].
  pose proof (devicePath_properties
    (String.String (Ascii.ascii_of_nat 67)
      (String.String (Ascii.ascii_of_nat 79)
         (String.String (Ascii.ascii_of_nat 77)
            (String.String (Ascii.ascii_of_nat 51) String.EmptyString)))))
    as (_ & _ & _ & Hadd & _).
  destruct (Hadd _ _ eq_refl Hc) as [_ Hlen]. exact Hlen.
Defined.

(** Every way [openInternal] can go, by the provider's answers.  The
    run is named first, so that the case analysis rewrites one
    occurrence only. *)
Ltac open_cases P PARITY_NONE o w run :=
  remember (OpenWindows.openInternal P PARITY_NONE o w) as run eqn:Hrun;
  revert Hrun;
  unfold OpenWindows.openInternal;
  cbn [OpenWindows.Options.PortName OpenWindows.with_PortName OpenWindows.Options.timing];
  rewrite ?with_PortName_params;
  remember (OpenWindows.devicePath (OpenWindows.Options.PortName o)) as name eqn:Hname;
  remember (ctoFromOpenOptions (OpenWindows.Options.timing o)) as legacy eqn:Hlegacy;
  remember (OpenWindows.setCommState_params PARITY_NONE o) as params eqn:Hparams;
  remember (Z.lor OpenWindows.GENERIC_READ OpenWindows.GENERIC_WRITE) as access eqn:Haccess;
  unfold OpenWindows.setCommState, OpenWindows.setupComm,
    Windows.setCommTimeouts, OpenWindows.closeOnError,
    bind, perform, OpenWindows.performOpen, OpenWindows.journaled, ret;
  rewrite ?with_PortName_params; rewrite <- ?Hparams;
  destruct (OpenWindows.UTF16PtrFromString P name) as [e0 |] eqn:Hutf;
  [ | destruct (OpenWindows.osCreateFile P name (fst (os w)))
        as [[h0 [e1 |]] s1] eqn:Hcreate;
      cbn [os trace fst snd];
      [ | destruct (OpenWindows.osSetCommState P h0 params s1)
            as [[r2 e2] s2] eqn:Hstate;
          cbn [os trace fst snd Windows.syscallResult];
          destruct (r2 =? 0) eqn:Er2;
          cbn [os trace fst snd osCloseHandle osSetCommTimeouts OpenWindows.recorded];
          unfold OpenWindows.journaled;
          cbn [os trace fst snd];
          [ destruct (osCloseHandle (OpenWindows.base P) h0 s2) as [c5 s5] eqn:Hclose
          | destruct (OpenWindows.osSetupComm P h0 64 64 s2)
                as [[r3 e3] s3] eqn:Hsetup;
              cbn [os trace fst snd Windows.syscallResult];
              destruct (r3 =? 0) eqn:Er3;
              cbn [os trace fst snd];
              [ destruct (osCloseHandle (OpenWindows.base P) h0 s3) as [c5 s5] eqn:Hclose
              | destruct (osSetCommTimeouts (OpenWindows.base P) h0 legacy s3)
                    as [[r4 e4] s4] eqn:Htimeouts;
                  cbn [os trace fst snd Windows.syscallResult];
                  destruct (r4 =? 0) eqn:Er4;
                  cbn [os trace fst snd];
                  [ destruct (osCloseHandle (OpenWindows.base P) h0 s4)
                      as [c5 s5] eqn:Hclose
                  | ] ] ] ] ];
  cbn [os trace fst snd];
  intros Hrun; subst run name legacy params access; cbn [os trace fst snd].

(** The run of [openInternal] that returns a port. *)
Lemma openInternal_returns_port {S : Type} (P : OpenWindows.OpenProvider S)
    (PARITY_NONE : Z) (o : OpenWindows.Options.t)
    (w : World (OpenWindows.Journal S)) (sp : Windows.serialPort) :
  fst (OpenWindows.openInternal P PARITY_NONE o w) = Returns (Some sp, None) ->
  let h := Windows.fd sp in
  let name := OpenWindows.devicePath (OpenWindows.Options.PortName o) in
  let legacy := ctoFromOpenOptions (OpenWindows.Options.timing o) in
  OpenWindows.UTF16PtrFromString P name = None /\
  fst (OpenWindows.osCreateFile P name (fst (os w))) = (h, None) /\
  snd (os (snd (OpenWindows.openInternal P PARITY_NONE o w))) =
    snd (os w) ++
    [OpenWindows.SysCreateFile name 3221225472 0 3 128;
     OpenWindows.SysSetCommState h (OpenWindows.setCommState_params PARITY_NONE o);
     OpenWindows.SysSetupComm h 64 64;
     OpenWindows.Base (SysSetCommTimeouts h legacy)] /\
  trace (snd (OpenWindows.openInternal P PARITY_NONE o w)) =
    trace w ++ [SysSetCommTimeouts h legacy].
Proof.
  cbv zeta. revert sp.
  open_cases P PARITY_NONE o w run; intros sp H; try discriminate.
  injection H as <-. cbn [Windows.fd].
  split; [reflexivity |]. split; [reflexivity |].
  split; [rewrite <- !app_assoc; reflexivity | reflexivity].
Qed.

(** X12.  When [openInternal] returns a port, the name conversion and
    [CreateFile] succeeded, the port holds the handle [CreateFile]
    returned, and exactly four calls were made, in this order:
    [CreateFile] on the device path for reading and writing,
    [SetCommState] with the DCB of the options, [SetupComm] with two
    64-byte queues and [SetCommTimeouts] with the legacy translation of
    the options.  The handle was not closed. *)
Theorem openInternal_success {S : Type} (P : OpenWindows.OpenProvider S)
    (PARITY_NONE : Z) (o : OpenWindows.Options.t)
    (w : World (OpenWindows.Journal S)) (sp : Windows.serialPort) :
  fst (OpenWindows.openInternal P PARITY_NONE o w) = Returns (Some sp, None) ->
  let h := Windows.fd sp in
  let name := OpenWindows.devicePath (OpenWindows.Options.PortName o) in
  let legacy := ctoFromOpenOptions (OpenWindows.Options.timing o) in
  OpenWindows.UTF16PtrFromString P name = None /\
  fst (OpenWindows.osCreateFile P name (fst (os w))) = (h, None) /\
  snd (os (snd (OpenWindows.openInternal P PARITY_NONE o w))) =
    snd (os w) ++
    [OpenWindows.SysCreateFile name 3221225472 0 3 128;
     OpenWindows.SysSetCommState h (OpenWindows.setCommState_params PARITY_NONE o);
     OpenWindows.SysSetupComm h 64 64;
     OpenWindows.Base (SysSetCommTimeouts h legacy)] /\
  trace (snd (OpenWindows.openInternal P PARITY_NONE o w)) =
    trace w ++ [SysSetCommTimeouts h legacy].
Proof.
  cbv zeta. revert sp.
  open_cases P PARITY_NONE o w run; intros sp H; try discriminate.
  injection H as <-. cbn [Windows.fd].
  split; [reflexivity |]. split; [reflexivity |].
  split; [rewrite <- !app_assoc; reflexivity | reflexivity].
Qed.


(** X14.  [openInternal] never panics and returns either a port or an
    error, never both and never neither.  When the name cannot be
    converted it makes no call at all; when [CreateFile] fails it has
    made that one call and closes nothing. *)
Theorem openInternal_result {S : Type} (P : OpenWindows.OpenProvider S)
    (PARITY_NONE : Z) (o : OpenWindows.Options.t)
    (w : World (OpenWindows.Journal S)) :
  let name := OpenWindows.devicePath (OpenWindows.Options.PortName o) in
  (exists port err,
     fst (OpenWindows.openInternal P PARITY_NONE o w) = Returns (port, err) /\
     (port = None <-> err <> None)) /\
  (forall e0, OpenWindows.UTF16PtrFromString P name = Some e0 ->
     OpenWindows.openInternal P PARITY_NONE o w =
       (Returns (None, Some (Errno e0)), w)) /\
  (forall h e1 s1,
     OpenWindows.UTF16PtrFromString P name = None ->
     OpenWindows.osCreateFile P name (fst (os w)) = ((h, Some e1), s1) ->
     fst (OpenWindows.openInternal P PARITY_NONE o w) =
       Returns (None, Some (Errno e1)) /\
     snd (os (snd (OpenWindows.openInternal P PARITY_NONE o w))) =
       snd (os w) ++ [OpenWindows.SysCreateFile name 3221225472 0 3 128] /\
     trace (snd (OpenWindows.openInternal P PARITY_NONE o w)) = trace w).
Proof.
  cbv zeta.
  open_cases P PARITY_NONE o w run.
  all: split; [do 2 eexists; split; [reflexivity |];
               split; [intros; try discriminate | intros H; try reflexivity;
                                                   exfalso; apply H; reflexivity] |].
  all: split; [intros e0' He; try discriminate;
               try (injection He as <-; destruct w; reflexivity) |].
  all: intros h e1' s1' Hu Hc; try discriminate.
  - injection Hc as <- <- <-. repeat split; reflexivity.
Qed.

(** On the reference provider: [COM7] opens with the legacy timeouts
    of (100, 0). *)
Lemma openInternal_COM7 :
  let o := RefOpenDriver.COM7 (mkOpenOptions 100 0) in
  let run := OpenWindows.openInternal RefOpenDriver.provider RefOpenDriver.PARITY_NONE
               o RefOpenDriver.boot in
  fst run = Returns (Some (Windows.mkPort 7), None) /\
  snd (os (snd run)) =
    [OpenWindows.SysCreateFile RefOpenDriver.COM7path 3221225472 0 3 128;
     OpenWindows.SysSetCommState 7
       (OpenWindows.mkDCB 28 9600 [17; 0; 0; 0] 0 0 0 8 0 0 0 0 0 0 0 0);
     OpenWindows.SysSetupComm 7 64 64;
     OpenWindows.Base (SysSetCommTimeouts 7 (mkCTO MAXDWORD MAXDWORD 1 0 0))].
Proof.
  cbv zeta.
  assert (H : fst (OpenWindows.openInternal RefOpenDriver.provider
                     RefOpenDriver.PARITY_NONE
                     (RefOpenDriver.COM7 (mkOpenOptions 100 0)) RefOpenDriver.boot)
              = Returns (Some (Windows.mkPort 7), None)) by (vm_compute; reflexivity).
  split; [exact H |].
  destruct (openInternal_success RefOpenDriver.provider RefOpenDriver.PARITY_NONE
              (RefOpenDriver.COM7 (mkOpenOptions 100 0)) RefOpenDriver.boot
              (Windows.mkPort 7) H) as (_ & _ & Hj & _).
  rewrite Hj. vm_compute. reflexivity.
Defined.


(** A name that cannot be converted: nothing is called. *)
Lemma openInternal_badName :
  OpenWindows.UTF16PtrFromString RefOpenDriver.provider
    (OpenWindows.devicePath (OpenWindows.Options.PortName RefOpenDriver.badName))
    = Some RefOpenDriver.EINVAL /\
  OpenWindows.openInternal RefOpenDriver.provider RefOpenDriver.PARITY_NONE
    RefOpenDriver.badName RefOpenDriver.boot =
    (Returns (None, Some (Errno RefOpenDriver.EINVAL)), RefOpenDriver.boot).
Proof.
  assert (Hu : OpenWindows.UTF16PtrFromString RefOpenDriver.provider
                 (OpenWindows.devicePath
                    (OpenWindows.Options.PortName RefOpenDriver.badName))
               = Some RefOpenDriver.EINVAL) by reflexivity.
  split; [exact Hu |].
  destruct (openInternal_result RefOpenDriver.provider RefOpenDriver.PARITY_NONE
              RefOpenDriver.badName RefOpenDriver.boot) as (_ & H & _).
  exact (H _ Hu).
Defined.

(** ** [Open] and the exported [Port] *)

Lemma Open_run {S : Type} (P : OpenWindows.OpenProvider S) (PARITY_NONE : Z)
    (o : OpenWindows.Options.t) (w : World (OpenWindows.Journal S)) :
  OpenWindows.Open P PARITY_NONE o w =
    match OpenWindows.openInternal P PARITY_NONE o w with
    | (Returns (port, Some e), w') => (Returns (None, Some e), w')
    | (Returns (port, None), w') =>
        (Returns (Some (OpenWindows.mkPortStruct port), None), w')
    | (Panics, w') => (Panics, w')
    end.
Proof.
  unfold OpenWindows.Open, bind.
  destruct (OpenWindows.openInternal P PARITY_NONE o w) as [[[port [e |]] |] w'];
    reflexivity.
Qed.

(** X15.  [Open] has the effects of [openInternal] and returns either a
    [Port] or an error.  With an error the [*Port] is nil, and a method
    of [*serialPort] called through a nil [*Port] panics before the
    method's own guard is reached; without an error the [Port] embeds a
    non-nil [*serialPort], the one [openInternal] returned. *)
Theorem Open_returns_Port_or_nil {S : Type} (P : OpenWindows.OpenProvider S)
    (PARITY_NONE : Z) (o : OpenWindows.Options.t)
    (w : World (OpenWindows.Journal S)) :
  snd (OpenWindows.Open P PARITY_NONE o w) =
    snd (OpenWindows.openInternal P PARITY_NONE o w) /\
  (exists p err, fst (OpenWindows.Open P PARITY_NONE o w) = Returns (p, err) /\
                 (p = None <-> err <> None)) /\
  (forall p e, fst (OpenWindows.Open P PARITY_NONE o w) = Returns (p, Some e) ->
     p = None /\
     forall w',
       OpenWindows.promoted p (Windows.Close (OpenWindows.recorded P)) w' = (Panics, w') /\
       OpenWindows.promoted p
         (fun sp => Windows.SetTimeouts (OpenWindows.recorded P) sp DefaultTimeouts) w'
         = (Panics, w')) /\
  (forall p, fst (OpenWindows.Open P PARITY_NONE o w) = Returns (p, None) ->
     exists sp, p = Some (OpenWindows.mkPortStruct (Some sp)) /\
                fst (OpenWindows.openInternal P PARITY_NONE o w) = Returns (Some sp, None)).
Proof.
  rewrite Open_run.
  destruct (openInternal_result P PARITY_NONE o w) as ((port & err & Hr & Hiff) & _).
  destruct (OpenWindows.openInternal P PARITY_NONE o w) as [r w1].
  cbn [fst] in Hr. subst r.
  destruct err as [e |].
  - assert (port = None) by (apply Hiff; discriminate). subst port.
    cbn [fst snd].
    split; [reflexivity |].
    split; [exists None, (Some e); split; [reflexivity | split; [discriminate | reflexivity]] |].
    split.
    + intros p e' H. injection H as <- <-.
      split; [reflexivity |]. intros w'. split; reflexivity.
    + intros p H. discriminate.
  - destruct port as [sp |].
    2: { exfalso. destruct Hiff as [Hiff _]. apply (Hiff eq_refl). reflexivity. }
    cbn [fst snd].
    split; [reflexivity |].
    split.
    { eexists. exists None. split; [reflexivity |].
      split; [discriminate | intros H; exfalso; apply H; reflexivity]. }
    split.
    + intros p e H. discriminate.
    + intros p H. injection H as <-. exists sp. split; reflexivity.
Qed.

(** On the reference provider: after a failed [Open], [Close] through
    the returned [*Port] panics. *)
Lemma Open_badName_then_Close :
  let run := OpenWindows.Open RefOpenDriver.provider RefOpenDriver.PARITY_NONE
               RefOpenDriver.badName RefOpenDriver.boot in
  fst run = Returns (None, Some (Errno RefOpenDriver.EINVAL)) /\
  OpenWindows.promoted None
    (Windows.Close (OpenWindows.recorded RefOpenDriver.provider)) (snd run) =
    (Panics, snd run).
Proof.
  cbv zeta.
  assert (H : fst (OpenWindows.Open RefOpenDriver.provider RefOpenDriver.PARITY_NONE
                     RefOpenDriver.badName RefOpenDriver.boot)
              = Returns (None, Some (Errno RefOpenDriver.EINVAL))) by reflexivity.
  split; [exact H |].
  destruct (Open_returns_Port_or_nil RefOpenDriver.provider RefOpenDriver.PARITY_NONE
              RefOpenDriver.badName RefOpenDriver.boot) as (_ & _ & Hnil & _).
  destruct (Hnil None _ H) as [_ Hpanic].
  destruct (Hpanic (snd (OpenWindows.Open RefOpenDriver.provider
                           RefOpenDriver.PARITY_NONE RefOpenDriver.badName
                           RefOpenDriver.boot))) as [Hclose _].
  exact Hclose.
Defined.

(** ** A whole session *)

Lemma journaled_journal {S A : Type} (c : OpenWindows.OpenCall)
    (f : S -> A * S) (j : OpenWindows.Journal S) :
  snd (snd (OpenWindows.journaled c f j)) = snd j ++ [c].
Proof. unfold OpenWindows.journaled. destruct (f (fst j)). reflexivity. Qed.

(** X16.  A session through the exported [Port]: [Open], one
    [ReadWithTimeouts], [Close], on a handle that passes the guard.
    Seven calls reach the provider, in this order: the four of the open
    path, ending in the legacy timeouts; the timeouts of the request,
    which replace them before the first byte is read; the read; and
    [CloseHandle] on the handle the session began with.  Neither step
    panics. *)
Theorem Open_ReadWithTimeouts_Close {S : Type} (P : OpenWindows.OpenProvider S)
    (PARITY_NONE : Z) (o : OpenWindows.Options.t)
    (w : World (OpenWindows.Journal S)) (sp : Windows.serialPort)
    (buf : list Byte.byte) (t : Timeouts) :
  let port := Some (OpenWindows.mkPortStruct (Some sp)) in
  let K := OpenWindows.recorded P in
  let h := Windows.fd sp in
  let opened := OpenWindows.Open P PARITY_NONE o w in
  let read :=
    OpenWindows.promoted port
      (fun p => ReadWithTimeouts (Windows.methods K) p buf t) (snd opened) in
  let closed := OpenWindows.promoted port (Windows.Close K) (snd read) in
  fst opened = Returns (port, None) ->
  Windows.nilOrInvalid (Some sp) = false ->
  snd (os (snd closed)) =
    snd (os w) ++
    [OpenWindows.SysCreateFile
       (OpenWindows.devicePath (OpenWindows.Options.PortName o)) 3221225472 0 3 128;
     OpenWindows.SysSetCommState h (OpenWindows.setCommState_params PARITY_NONE o);
     OpenWindows.SysSetupComm h 64 64;
     OpenWindows.Base
       (SysSetCommTimeouts h (ctoFromOpenOptions (OpenWindows.Options.timing o)));
     OpenWindows.Base (SysSetCommTimeouts h (Windows.SetTimeouts_cto t));
     OpenWindows.Base (SysReadFile h buf);
     OpenWindows.Base (SysCloseHandle h)] /\
  (exists r, fst read = Returns r) /\
  (exists e, fst closed = Returns e).
Proof.
  cbv zeta. intros Hopen Hg.
  rewrite Open_run in *.
  destruct (OpenWindows.openInternal P PARITY_NONE o w) as [r w1] eqn:Hrun.
  assert (Hport : r = Returns (Some sp, None)).
  { destruct r as [[port [e |]] |]; cbn [fst] in Hopen; try discriminate.
    injection Hopen as ->. reflexivity. }
  subst r. cbn [fst snd].
  destruct (openInternal_returns_port P PARITY_NONE o w sp) as (_ & _ & Hj & _).
  { rewrite Hrun. reflexivity. }
  rewrite Hrun in Hj. cbn [snd] in Hj.
  unfold OpenWindows.promoted. cbn [OpenWindows.embedded].
  unfold ReadWithTimeouts, bind. cbn [mSetTimeouts mRead Windows.methods].
  rewrite (SetTimeouts_usable (OpenWindows.recorded P) sp t w1 Hg).
  rewrite (Read_usable (OpenWindows.recorded P) sp buf _ Hg).
  cbn [fst snd].
  rewrite (Close_usable (OpenWindows.recorded P) sp _ Hg).
  cbn [fst snd os trace osSetCommTimeouts osReadFile osCloseHandle OpenWindows.recorded].
  rewrite !journaled_journal, Hj.
  split; [rewrite <- !app_assoc; reflexivity |].
  split; eexists; reflexivity.
Qed.

(** On the reference provider: [COM7] opened with the legacy timing
    (100, 0), read once with the default timeouts, and closed. *)
Lemma session_on_reference_provider :
  let port := Some (OpenWindows.mkPortStruct (Some (Windows.mkPort 7))) in
  let K := OpenWindows.recorded RefOpenDriver.provider in
  let opened :=
    OpenWindows.Open RefOpenDriver.provider RefOpenDriver.PARITY_NONE
      (RefOpenDriver.COM7 (mkOpenOptions 100 0)) RefOpenDriver.boot in
  let read :=
    OpenWindows.promoted port
      (fun p => ReadWithTimeouts (Windows.methods K) p
                  [Byte.x00; Byte.x00; Byte.x00] DefaultTimeouts) (snd opened) in
  let closed := OpenWindows.promoted port (Windows.Close K) (snd read) in
  fst opened = Returns (port, None) /\
  Windows.nilOrInvalid (Some (Windows.mkPort 7)) = false /\
  snd (os (snd closed)) =
    [OpenWindows.SysCreateFile RefOpenDriver.COM7path 3221225472 0 3 128;
     OpenWindows.SysSetCommState 7
       (OpenWindows.mkDCB 28 9600 [17; 0; 0; 0] 0 0 0 8 0 0 0 0 0 0 0 0);
     OpenWindows.SysSetupComm 7 64 64;
     OpenWindows.Base (SysSetCommTimeouts 7 (mkCTO MAXDWORD MAXDWORD 1 0 0));
     OpenWindows.Base (SysSetCommTimeouts 7 (mkCTO 1 0 100 0 100));
     OpenWindows.Base (SysReadFile 7 [Byte.x00; Byte.x00; Byte.x00]);
     OpenWindows.Base (SysCloseHandle 7)].
Proof.
  cbv zeta.
  assert (H : fst (OpenWindows.Open RefOpenDriver.provider RefOpenDriver.PARITY_NONE
                     (RefOpenDriver.COM7 (mkOpenOptions 100 0)) RefOpenDriver.boot)
              = Returns (Some (OpenWindows.mkPortStruct (Some (Windows.mkPort 7))), None))
    by (vm_compute; reflexivity).
  split; [exact H |]. split; [reflexivity |].
  destruct (Open_ReadWithTimeouts_Close RefOpenDriver.provider RefOpenDriver.PARITY_NONE
              (RefOpenDriver.COM7 (mkOpenOptions 100 0)) RefOpenDriver.boot
              (Windows.mkPort 7) [Byte.x00; Byte.x00; Byte.x00] DefaultTimeouts
              H eq_refl) as (Hj & _).
  rewrite Hj. vm_compute. reflexivity.
Defined.
